(** * Project registry and generation orchestrator of the code-to-HTML tool

    A shallow embedding of the state handling in [App.tsx] (the registry of
    processed files and the active pointer) and of the orchestration code in
    [components/EditorView.tsx] (the generation effect, the form and the
    file and image inputs), followed by the properties the specification
    states about them and by further properties of the code.

    Modelling conventions.
    - A JavaScript string is a [string]; each character stands for one code
      unit below 256.  [+] on strings is [+:+].
    - The registry is a plain JavaScript object used as a map.  Its own
      properties are kept in a finite map; besides the entries of type
      [ProcessedFile] it can come to hold objects with a [generatedHtml]
      field only ([Stray]).  Reading [prev[path]] follows the prototype
      chain: when [path] is no own property but names a member of
      [Object.prototype], the read finds that member ([jsGet]).
    - Tests such as [if (error)], [if (!project)] and
      [activeFile ? ... : null] follow JavaScript truthiness: [null],
      [undefined] and the empty string are falsy, objects and functions are
      truthy.
    - A React state setter called with an updater either hands back the
      very object it was given (React then skips the render), or a freshly
      built one, or the updater throws; [Updated] records which of the
      three happened.  An error thrown by an updater or by an effect is not
      caught by any component: React unmounts the page ([dispatch] then has
      no result).
    - The state updates one callback makes are applied together, and are
      followed by one render. *)

From Stdlib Require Import Ascii String.
From stdpp Require Import gmap strings list fin_maps pretty.

(** ** Data model *)

(** [ProjectFile] of [services/geminiService]: the objects built at
    [EditorView.tsx] lines 66 and 117 have exactly these two fields. *)
Module ProjectFile.
Record t : Type := mk { name : string; code : string }.
End ProjectFile.

Record ProcessedFile : Type := mkProcessedFile {
  name : string;
  path : string;
  sourceFiles : list ProjectFile.t;
  generatedHtml : string
}.

(** The argument of [handleGenerationStart]. *)
Record FileData : Type := mkFileData {
  fd_name : string;
  fd_path : string;
  fd_sourceFiles : list ProjectFile.t
}.

(** What an own property of the registry object can hold: an entry, or the
    object [{ generatedHtml: html }] that [handleStreamUpdate] builds from
    a value that is no entry. *)
Inductive Stored : Type :=
| Entry (e : ProcessedFile)
| Stray (html : string).

(** The registry object: its own properties. *)
Record Registry : Type := mkRegistry {
  stored : gmap string Stored
}.

(** [r !! p] is the entry stored under the own key [p], if there is one;
    [<[p := e]> r] stores the entry [e] under [p]; [∅] is [{}]. *)
Global Instance registry_lookup : Lookup string ProcessedFile Registry :=
  λ p r, match stored r !! p with
         | Some (Entry e) => Some e
         | _ => None
         end.

Global Instance registry_insert : Insert string ProcessedFile Registry :=
  λ p e r, mkRegistry (<[p := Entry e]> (stored r)).

Global Instance registry_empty : Empty Registry := mkRegistry ∅.

Global Instance registry_singleton
    : SingletonM string ProcessedFile Registry :=
  λ p e, mkRegistry {[ p := Entry e ]}.

(** The own keys of the registry object. *)
Global Instance registry_dom : Dom Registry (gset string) :=
  λ r, dom (stored r).

(** [{ ...prev, [p]: { generatedHtml: html } }] *)
Definition storeStray (p : string) (html : string) (r : Registry)
    : Registry :=
  mkRegistry (<[p := Stray html]> (stored r)).

(** The property names of [Object.prototype] (ECMAScript, with Annex B);
    each of them holds a function, except [__proto__], which reads as
    [Object.prototype] itself. *)
Definition objectPrototypeNames : list string :=
  [ "constructor"; "hasOwnProperty"; "isPrototypeOf";
    "propertyIsEnumerable"; "toLocaleString"; "toString"; "valueOf";
    "__proto__"; "__defineGetter__"; "__defineSetter__";
    "__lookupGetter__"; "__lookupSetter__" ].

Definition inherited (p : string) : bool :=
  bool_decide (p ∈ objectPrototypeNames).

(** What [prev[p]] evaluates to.  Only [NotFound], which is [undefined],
    is falsy. *)
Inductive Found : Type :=
| FoundEntry (e : ProcessedFile)
| FoundStray (html : string)
| FoundInherited
| NotFound.

Definition jsGet (r : Registry) (p : string) : Found :=
  match stored r !! p with
  | Some (Entry e) => FoundEntry e
  | Some (Stray html) => FoundStray html
  | None => if inherited p then FoundInherited else NotFound
  end.

(** The two state cells of the [App] component. *)
Record App : Type := mkApp {
  processedFiles : Registry;
  activeFile : option string
}.

(** State right after mounting: [useState({})] and [useState(null)]. *)
Definition initialApp : App := mkApp ∅ None.

(** ['preview' | 'code'] *)
Inductive Tab : Type := TabPreview | TabCode.

(** The state cells of the [EditorView] component. *)
Record EditorView : Type := mkEditorView {
  isLoading : bool;
  error : option string;
  isCopied : bool;
  activeTab : Tab;
  pastedCode : string;
  inputFileName : string;
  validationError : option string;
  imagePreview : option string;
  imageBase64 : option string;
  imageMimeType : option string
}.

Definition initialView : EditorView :=
  mkEditorView false None false TabPreview "" "" None None None None.

(** The state of the whole page: [App] and the [EditorView] it renders. *)
Record Session : Type := mkSession {
  app : App;
  view : EditorView
}.

Definition initialSession : Session := mkSession initialApp initialView.

(** ** React state updates *)

Inductive Updated (A : Type) : Type :=
| Kept : Updated A
| Replaced : A → Updated A
| Threw : Updated A.
Arguments Kept {A}.
Arguments Replaced {A} _.
Arguments Threw {A}.

(** The value of the state cell afterwards.  When the updater throws, no
    new value is committed. *)
Definition setState {A : Type} (prev : A) (u : Updated A) : A :=
  match u with
  | Kept => prev
  | Replaced a => a
  | Threw => prev
  end.

Definition isReplaced {A : Type} (u : Updated A) : bool :=
  match u with
  | Kept => false
  | Replaced _ => true
  | Threw => false
  end.

Definition isThrown {A : Type} (u : Updated A) : bool :=
  match u with
  | Kept => false
  | Replaced _ => false
  | Threw => true
  end.

(** ** Handlers of [App] *)

(** [{ ...fileData, generatedHtml: '' }] *)
Definition newFile (fileData : FileData) : ProcessedFile :=
  {| name := fd_name fileData;
     path := fd_path fileData;
     sourceFiles := fd_sourceFiles fileData;
     generatedHtml := "" |}.

Definition handleGenerationStart (fileData : FileData) (a : App) : App :=
  let nf := newFile fileData in
  {| processedFiles := <[path nf := nf]> (processedFiles a);
     activeFile := Some (path nf) |}.

(** [new Set(project.sourceFiles.map(f => f.name))] *)
Definition existingFileNames (project : ProcessedFile) : gset string :=
  list_to_set (ProjectFile.name <$> sourceFiles project).

(** [newFiles.filter(f => !existingFileNames.has(f.name))] *)
Definition uniqueNewFiles (project : ProcessedFile)
    (newFiles : list ProjectFile.t) : list ProjectFile.t :=
  List.filter
    (λ f, negb (bool_decide (ProjectFile.name f ∈ existingFileNames project)))
    newFiles.

(** The updater passed to [setProcessedFiles] in [handleAddFilesToProject].
    [project] is whatever [prev[projectPath]] finds.  On a value that is no
    entry, [project.sourceFiles] is [undefined] and the call of [map] on it
    throws a [TypeError]. *)
Definition addFilesUpdater (projectPath : string)
    (newFiles : list ProjectFile.t)
    (prev : Registry) : Updated Registry :=
  match jsGet prev projectPath with
  | NotFound => Kept
  | FoundEntry project =>
      let unique := uniqueNewFiles project newFiles in
      if Nat.eqb (length unique) 0 then Kept
      else Replaced
             (<[projectPath :=
                  {| name := name project;
                     path := path project;
                     sourceFiles := sourceFiles project ++ unique;
                     generatedHtml := "" |}]> prev)
  | FoundStray _ => Threw
  | FoundInherited => Threw
  end.

Definition handleAddFilesToProject (projectPath : string)
    (newFiles : list ProjectFile.t) (a : App) : App :=
  {| processedFiles :=
       setState (processedFiles a)
                (addFilesUpdater projectPath newFiles (processedFiles a));
     activeFile := activeFile a |}.

(** The updater passed to [setProcessedFiles] in [handleStreamUpdate].
    [existingFile] is whatever [prevFiles[path]] finds.  A member of
    [Object.prototype] is truthy, has no enumerable own property to spread
    and no [generatedHtml], and [undefined + htmlChunk] is the text
    ["undefined"] followed by the chunk. *)
Definition streamUpdater (p : string) (htmlChunk : string)
    (prevFiles : Registry) : Updated Registry :=
  match jsGet prevFiles p with
  | FoundEntry existingFile =>
      Replaced
        (<[p := {| name := name existingFile;
                   path := path existingFile;
                   sourceFiles := sourceFiles existingFile;
                   generatedHtml := generatedHtml existingFile +:+ htmlChunk |}]>
           prevFiles)
  | FoundStray html => Replaced (storeStray p (html +:+ htmlChunk) prevFiles)
  | FoundInherited =>
      Replaced (storeStray p ("undefined" +:+ htmlChunk) prevFiles)
  | NotFound => Kept
  end.

Definition handleStreamUpdate (p : string) (htmlChunk : string)
    (a : App) : App :=
  {| processedFiles :=
       setState (processedFiles a)
                (streamUpdater p htmlChunk (processedFiles a));
     activeFile := activeFile a |}.

Definition handleReset (a : App) : App :=
  {| processedFiles := ∅; activeFile := None |}.

(** [activeFile ? processedFiles[activeFile] : null], the prop
    [EditorView] receives.  The empty string is falsy, so an active pointer
    equal to [""] selects nothing. *)
Definition activeValue (a : App) : Found :=
  match activeFile a with
  | Some p => if decide (p = "") then NotFound else jsGet (processedFiles a) p
  | None => NotFound
  end.

(** The prop when it is an entry. *)
Definition activeFileData (a : App) : option ProcessedFile :=
  match activeFile a with
  | Some p => if decide (p = "") then None else processedFiles a !! p
  | None => None
  end.

(** The prop is truthy but no entry: reading [activeFile.sourceFiles.length]
    in the effect then throws a [TypeError]. *)
Definition activeIsNoEntry (a : App) : bool :=
  match activeValue a with
  | FoundStray _ => true
  | FoundInherited => true
  | FoundEntry _ => false
  | NotFound => false
  end.

(** ** State setters of [EditorView] *)

Definition setIsLoading (b : bool) (v : EditorView) : EditorView :=
  mkEditorView b (error v) (isCopied v) (activeTab v) (pastedCode v)
    (inputFileName v) (validationError v) (imagePreview v) (imageBase64 v)
    (imageMimeType v).

Definition setError (e : option string) (v : EditorView) : EditorView :=
  mkEditorView (isLoading v) e (isCopied v) (activeTab v) (pastedCode v)
    (inputFileName v) (validationError v) (imagePreview v) (imageBase64 v)
    (imageMimeType v).

Definition setActiveTab (t : Tab) (v : EditorView) : EditorView :=
  mkEditorView (isLoading v) (error v) (isCopied v) t (pastedCode v)
    (inputFileName v) (validationError v) (imagePreview v) (imageBase64 v)
    (imageMimeType v).

Definition setValidationError (e : option string) (v : EditorView)
    : EditorView :=
  mkEditorView (isLoading v) (error v) (isCopied v) (activeTab v)
    (pastedCode v) (inputFileName v) e (imagePreview v) (imageBase64 v)
    (imageMimeType v).

Definition onApp (f : App → App) (s : Session) : Session :=
  {| app := f (app s); view := view s |}.

Definition onView (f : EditorView → EditorView) (s : Session) : Session :=
  {| app := app s; view := f (view s) |}.

(** ** String primitives used by the form *)

(** White space and line terminators of ECMAScript among the code units
    below 256: TAB, LF, VT, FF, CR, SP and NBSP. *)
Definition isWhiteSpace (c : ascii) : bool :=
  match c with
  | "009" | "010" | "011" | "012" | "013" | " " | "160" => true
  | _ => false
  end%char.

Fixpoint trimStart (s : string) : string :=
  match s with
  | "" => ""
  | String c s' => if isWhiteSpace c then trimStart s' else s
  end.

Fixpoint trimEnd (s : string) : string :=
  match s with
  | "" => ""
  | String c s' =>
      match trimEnd s' with
      | "" => if isWhiteSpace c then "" else String c ""
      | t => String c t
      end
  end.

(** [String.prototype.trim] *)
Definition trim (s : string) : string := trimEnd (trimStart s).

(** [String.prototype.includes]: [sub] occurs in [s] at some position. *)
Fixpoint includes (s sub : string) : bool :=
  String.prefix sub s ||
  match s with
  | "" => false
  | String _ s' => includes s' sub
  end.

(** Truthiness of a [string | null] value: [null] and [''] are falsy. *)
Definition truthy (o : option string) : bool :=
  match o with
  | Some m => negb (bool_decide (m = ""))
  | None => false
  end.

(** ** The pasted-code form *)

Definition processPastedCode (c n : string) (s : Session) : Session :=
  let projectFiles := [ProjectFile.mk n c] in
  onApp (handleGenerationStart (mkFileData n n projectFiles)) s.

Definition msgNoCode : string := "Please paste some code to convert.".
Definition msgBadName : string :=
  "Please provide a valid file name with an extension (e.g., script.js).".

Definition handleGenerateFromText (s : Session) : Session :=
  let s0 := onView (setValidationError None) s in
  if bool_decide (trim (pastedCode (view s)) = "") then
    onView (setValidationError (Some msgNoCode)) s0
  else if bool_decide (trim (inputFileName (view s)) = "")
          || negb (includes (inputFileName (view s)) ".") then
    onView (setValidationError (Some msgBadName)) s0
  else
    processPastedCode (pastedCode (view s)) (inputFileName (view s)) s0.

(** ** The remaining handlers of [EditorView] *)

(** [setPastedCode], [setInputFileName] and the three image setters. *)
Definition setPastedCode (c : string) (v : EditorView) : EditorView :=
  mkEditorView (isLoading v) (error v) (isCopied v) (activeTab v) c
    (inputFileName v) (validationError v) (imagePreview v) (imageBase64 v)
    (imageMimeType v).

Definition setInputFileName (n : string) (v : EditorView) : EditorView :=
  mkEditorView (isLoading v) (error v) (isCopied v) (activeTab v)
    (pastedCode v) n (validationError v) (imagePreview v) (imageBase64 v)
    (imageMimeType v).

Definition setImagePreview (o : option string) (v : EditorView)
    : EditorView :=
  mkEditorView (isLoading v) (error v) (isCopied v) (activeTab v)
    (pastedCode v) (inputFileName v) (validationError v) o (imageBase64 v)
    (imageMimeType v).

Definition setImageBase64 (o : option string) (v : EditorView) : EditorView :=
  mkEditorView (isLoading v) (error v) (isCopied v) (activeTab v)
    (pastedCode v) (inputFileName v) (validationError v) (imagePreview v) o
    (imageMimeType v).

Definition setImageMimeType (o : option string) (v : EditorView)
    : EditorView :=
  mkEditorView (isLoading v) (error v) (isCopied v) (activeTab v)
    (pastedCode v) (inputFileName v) (validationError v) (imagePreview v)
    (imageBase64 v) o.

(** [handleResetAndClear]: [onReset()] and then the seven setters, in the
    order of the source.  [isLoading], [isCopied] and [activeTab] are not
    touched. *)
Definition handleResetAndClear (s : Session) : Session :=
  onView
    (λ v, setValidationError None
            (setError None
               (setImageMimeType None
                  (setImagePreview None
                     (setImageBase64 None
                        (setInputFileName "" (setPastedCode "" v)))))))
    (onApp handleReset s).

(** [removeImage] *)
Definition removeImage (s : Session) : Session :=
  onView (λ v, setImageMimeType None (setImageBase64 None
                                        (setImagePreview None v))) s.

(** [String.prototype.split] with a one-character separator. *)
Fixpoint splitOn (sep : ascii) (s : string) : list string :=
  match s with
  | "" => [""]
  | String c s' =>
      if Ascii.eqb c sep then "" :: splitOn sep s'
      else match splitOn sep s' with
           | [] => [String c ""]
           | w :: ws => String c w :: ws
           end
  end.

(** The file picked in the image input, as [handleImageChange] sees it: its
    [type], and the data URL the [FileReader] hands to [onload]. *)
Record ImageFile : Type := mkImageFile {
  img_type : string;
  img_result : string
}.

(** [handleImageChange], with the [onload] callback run.  [split(',')[1]]
    is [undefined] when the result has no comma; the cell then holds no
    string, like [null]. *)
Definition handleImageChange (file : option ImageFile) (s : Session)
    : Session :=
  match file with
  | Some f =>
      if String.prefix "image/" (img_type f) then
        let result := img_result f in
        let base64Data := splitOn "," result !! 1%nat in
        onView (λ v, setImageMimeType (Some (img_type f))
                       (setImageBase64 base64Data
                          (setImagePreview (Some result) v))) s
      else s
  | None => s
  end.

(** What [Promise.all(fileReadPromises)] settles to: every file read, in
    the order of the selection, or the rejection
    [new Error(`Failed to read file: ${file.name}`)] of a file whose read
    failed. *)
Inductive ReadOutcome : Type :=
| AllRead (projectFiles : list ProjectFile.t)
| ReadFailed (fileName : string).

(** [projectFiles.length > 1 ? `Project (${projectFiles.length} files)`
    : projectFiles[0].name] *)
Definition projectNameOf (f : ProjectFile.t) (rest : list ProjectFile.t)
    : string :=
  if (1 <? length (f :: rest))%nat
  then "Project (" +:+ pretty (length (f :: rest)) +:+ " files)"
  else ProjectFile.name f.

(** [handleFileChange].  [activeFile] is the prop the handler closed over
    when the selection was made; the selection is empty for [AllRead []],
    where the handler returns at once.  Clearing the file input in the
    [finally] clause touches no state cell. *)
Definition handleFileChange (activeFile : option ProcessedFile)
    (outcome : ReadOutcome) (s : Session) : Session :=
  match outcome with
  | AllRead [] => s
  | AllRead (f :: rest) =>
      match activeFile with
      | Some af => onApp (handleAddFilesToProject (path af) (f :: rest)) s
      | None =>
          let projectName := projectNameOf f rest in
          onApp (handleGenerationStart
                   (mkFileData projectName projectName (f :: rest))) s
      end
  | ReadFailed n =>
      let message := "Failed to read file: " +:+ n in
      onView (setError (Some ("File Read Error: " +:+ message))) s
  end.

(** ** The generation effect *)

(** One call of [generateHtmlForProjectStream]: the files and the image it
    is given, and the path the chunk callback forwards to. *)
Record Invocation : Type := mkInvocation {
  inv_sourceFiles : list ProjectFile.t;
  inv_imageData : option string;
  inv_imageMimeType : option string;
  inv_target : string
}.

(** The guard of the effect: an active entry with at least one source file
    and an empty output. *)
Definition needsGeneration (af : ProcessedFile) : bool :=
  (0 <? length (sourceFiles af))%nat && bool_decide (generatedHtml af = "").

(** The body of the effect, up to the service call: the call it issues, if
    any. *)
Definition generationEffect (s : Session) : option Invocation :=
  match activeFileData (app s) with
  | None => None
  | Some af =>
      if needsGeneration af then
        Some {| inv_sourceFiles := sourceFiles af;
                inv_imageData := imageBase64 (view s);
                inv_imageMimeType := imageMimeType (view s);
                inv_target := path af |}
      else None
  end.

(** What a [catch] clause can receive: an [Error] object with its message,
    or any other value. *)
Inductive Thrown : Type :=
| ThrownError (message : string)
| ThrownOther.

(** [err instanceof Error ? err.message : "An unknown error occurred."] *)
Definition errorMessage (err : Thrown) : string :=
  match err with
  | ThrownError m => m
  | ThrownOther => "An unknown error occurred."
  end.

(** The behaviour of the streaming service during one call: the chunks it
    hands to the callback, in order, and then either normal completion or
    the value it throws. *)
Record StreamRun : Type := mkStreamRun {
  delivered : list string;
  outcome : option Thrown
}.

(** The statements of [generate] before the service call. *)
Definition generateStart (v : EditorView) : EditorView :=
  setActiveTab TabPreview (setError None (setIsLoading true v)).

(** The [catch] and [finally] clauses of [generate]. *)
Definition generateSettle (o : option Thrown) (v : EditorView) : EditorView :=
  setIsLoading false
    match o with
    | Some err => setError (Some (errorMessage err)) v
    | None => v
    end.

(** ** What the page shows *)

Inductive Screen : Type :=
| ErrorPanel (message : string)
| ProjectPanel (tab : Tab) (p : string) (html : string)
| IntakeForm (validation : option string)
| BrokenPanel (tab : Tab) (html : option string).

(** [renderContent]: the error panel when [error] is truthy, else the
    project panel when the [activeFile] prop is truthy, else the form.  For
    a prop that is no entry the panel has no path to show, and its output
    is the [generatedHtml] of the stray object, or nothing. *)
Definition renderContent (s : Session) : Screen :=
  if truthy (error (view s)) then ErrorPanel (default "" (error (view s)))
  else
    match activeValue (app s) with
    | FoundEntry af =>
        ProjectPanel (activeTab (view s)) (path af) (generatedHtml af)
    | FoundStray html => BrokenPanel (activeTab (view s)) (Some html)
    | FoundInherited => BrokenPanel (activeTab (view s)) None
    | NotFound => IntakeForm (validationError (view s))
    end.

(** ** The page as an event-driven machine *)

(** The four callbacks [App] hands to [EditorView]. *)
Inductive Event : Type :=
| GenerationStart (fileData : FileData)
| AddFilesToProject (projectPath : string) (newFiles : list ProjectFile.t)
| StreamUpdate (p : string) (htmlChunk : string)
| Reset.

Definition handle (ev : Event) (a : App) : App :=
  match ev with
  | GenerationStart fileData => handleGenerationStart fileData a
  | AddFilesToProject p newFiles => handleAddFilesToProject p newFiles a
  | StreamUpdate p chunk => handleStreamUpdate p chunk a
  | Reset => handleReset a
  end.

(** Whether the callback gives [App] a new state object, so that [App]
    renders again.  [handleGenerationStart] and [handleReset] always pass
    a new object literal to [setProcessedFiles]. *)
Definition rerenders (ev : Event) (a : App) : bool :=
  match ev with
  | GenerationStart _ => true
  | AddFilesToProject p newFiles =>
      isReplaced (addFilesUpdater p newFiles (processedFiles a))
  | StreamUpdate p chunk =>
      isReplaced (streamUpdater p chunk (processedFiles a))
  | Reset => true
  end.

(** Whether the updater of the callback throws. *)
Definition throws (ev : Event) (a : App) : bool :=
  match ev with
  | GenerationStart _ => false
  | AddFilesToProject p newFiles =>
      isThrown (addFilesUpdater p newFiles (processedFiles a))
  | StreamUpdate p chunk =>
      isThrown (streamUpdater p chunk (processedFiles a))
  | Reset => false
  end.

(** The events that can change a dependency of the generation effect
    ([activeFile], [imageBase64], [imageMimeType], [onStreamUpdate]): the
    four callbacks, the [onload] of an image read and [removeImage]. *)
Inductive PageEvent : Type :=
| Callback (ev : Event)
| ImageChange (file : option ImageFile)
| RemoveImage.

(** Whether [imageBase64] or [imageMimeType] differ between two renders. *)
Definition imageDepsChanged (v v' : EditorView) : bool :=
  negb (bool_decide (imageBase64 v = imageBase64 v' ∧
                     imageMimeType v = imageMimeType v')).

(** The effect, run because a dependency changed.  On a prop that is
    truthy but no entry it throws; when its guard holds, [generate] starts
    and one call is issued. *)
Definition afterRender (s : Session) : option (Session * list Invocation) :=
  if activeIsNoEntry (app s) then None
  else
    match generationEffect s with
    | Some inv => Some (onView generateStart s, [inv])
    | None => Some (s, [])
    end.

(** One event followed by the render it causes: the session afterwards and
    the calls issued, or nothing when the page is unmounted by a thrown
    error.  Each render of [App] builds a new [handleStreamUpdate], a
    dependency of the effect, so the effect runs after every render of
    [App]; after a render of [EditorView] alone it runs when the image
    data or type changed. *)
Definition dispatch (pev : PageEvent) (s : Session)
    : option (Session * list Invocation) :=
  match pev with
  | Callback ev =>
      if throws ev (app s) then None
      else
        let s' := onApp (handle ev) s in
        if rerenders ev (app s) then afterRender s' else Some (s', [])
  | ImageChange file =>
      let s' := handleImageChange file s in
      if imageDepsChanged (view s) (view s') then afterRender s'
      else Some (s', [])
  | RemoveImage =>
      let s' := removeImage s in
      if imageDepsChanged (view s) (view s') then afterRender s'
      else Some (s', [])
  end.

(** Whether the event changes a dependency of the effect. *)
Definition depsChanged (pev : PageEvent) (s : Session) : bool :=
  match pev with
  | Callback ev => rerenders ev (app s)
  | ImageChange file =>
      imageDepsChanged (view s) (view (handleImageChange file s))
  | RemoveImage => imageDepsChanged (view s) (view (removeImage s))
  end.

(** The session right after the event, before any effect runs. *)
Definition applyEvent (pev : PageEvent) (s : Session) : Session :=
  match pev with
  | Callback ev => onApp (handle ev) s
  | ImageChange file => handleImageChange file s
  | RemoveImage => removeImage s
  end.

(** The calls issued by one event. *)
Definition issued (pev : PageEvent) (s : Session) : list Invocation :=
  match dispatch pev s with
  | Some r => r.2
  | None => []
  end.

(** A sequence of events, with the calls issued along the way. *)
Fixpoint runEvents (pevs : list PageEvent) (s : Session)
    : option (Session * list Invocation) :=
  match pevs with
  | [] => Some (s, [])
  | pev :: rest =>
      match dispatch pev s with
      | Some (s1, calls) =>
          match runEvents rest s1 with
          | Some (s2, more) => Some (s2, calls ++ more)
          | None => None
          end
      | None => None
      end
  end.

(** The events after which the specification expects a generation: an
    entry becomes active, or a source-file append empties an output. *)
Definition isTrigger (pev : PageEvent) (a : App) : bool :=
  match pev with
  | Callback (GenerationStart _) => true
  | Callback (AddFilesToProject p newFiles) =>
      isReplaced (addFilesUpdater p newFiles (processedFiles a))
  | _ => false
  end.

(** ** One call of the service, from start to end *)

(** The async function [generate] of the effect, run to its end against a
    given behaviour of the service: the statements before the call, then
    each chunk handed to [onStreamUpdate(activeFile.path, chunk)] with the
    render and the effect run it causes, then the [catch] and [finally]
    clauses.  The result is the session afterwards and the further calls
    the effect issued on the way (their own chunks are later events), or
    nothing when the page is unmounted on the way. *)
Definition generateRun (af : ProcessedFile) (run : StreamRun) (s : Session)
    : option (Session * list Invocation) :=
  match runEvents ((λ chunk, Callback (StreamUpdate (path af) chunk))
                     <$> delivered run)
                  (onView generateStart s) with
  | Some (s2, calls) => Some (onView (generateSettle (outcome run)) s2, calls)
  | None => None
  end.

(** The session [generate] ends in (the one it started from when the page
    is unmounted on the way). *)
Definition generate (af : ProcessedFile) (run : StreamRun) (s : Session)
    : Session :=
  match generateRun af run s with
  | Some r => r.1
  | None => s
  end.

(** The effect as a whole. *)
Definition useEffectGenerate (run : StreamRun) (s : Session) : Session :=
  match activeFileData (app s) with
  | None => s
  | Some af => if needsGeneration af then generate af run s else s
  end.

(** ** Vocabulary of the specification *)

(** The names already stored in an entry: the names of its source files,
    in order. *)
Definition sourceNames (e : ProcessedFile) : list string :=
  ProjectFile.name <$> sourceFiles e.

(** The files of [newFiles] whose name is not yet in the entry, in the order
    they have in [newFiles]. *)
Definition freshFiles (e : ProcessedFile) (newFiles : list ProjectFile.t)
    : list ProjectFile.t :=
  filter (λ f, ProjectFile.name f ∉ sourceNames e) newFiles.

(** The entry [e] with its output replaced. *)
Definition withOutput (e : ProcessedFile) (html : string) : ProcessedFile :=
  {| name := name e; path := path e; sourceFiles := sourceFiles e;
     generatedHtml := html |}.

(** The call issued for an active entry that needs generation. *)
Definition callFor (s : Session) (af : ProcessedFile) : Invocation :=
  {| inv_sourceFiles := sourceFiles af;
     inv_imageData := imageBase64 (view s);
     inv_imageMimeType := imageMimeType (view s);
     inv_target := path af |}.

(** All chunks of a stream, joined in arrival order. *)
Definition joined (chunks : list string) : string :=
  foldr String.append "" chunks.

(** A string made of white space only (the empty string included). *)
Definition whitespaceOnly (s : string) : Prop :=
  Forall (λ c, isWhiteSpace c = true) (list_ascii_of_string s).

(** A string without any dot. *)
Definition lacksDot (s : string) : Prop :=
  "."%char ∉ list_ascii_of_string s.

(** Source-file names are pairwise distinct within every entry. *)
Definition namesUnique (a : App) : Prop :=
  ∀ p e, processedFiles a !! p = Some e → NoDup (sourceNames e).

(** States reachable from the initial one by the four operations. *)
Inductive reachable : App → Prop :=
| reachable_init : reachable initialApp
| reachable_step (ev : Event) (a : App) :
    reachable a → reachable (handle ev a).

(** An operation whose file arguments carry pairwise distinct names. *)
Definition distinctArgs (ev : Event) : Prop :=
  match ev with
  | GenerationStart fileData =>
      NoDup (ProjectFile.name <$> fd_sourceFiles fileData)
  | AddFilesToProject _ newFiles => NoDup (ProjectFile.name <$> newFiles)
  | StreamUpdate _ _ => True
  | Reset => True
  end.

(** States reachable by operations with such arguments only. *)
Inductive reachableDistinct : App → Prop :=
| reachableDistinct_init : reachableDistinct initialApp
| reachableDistinct_step (ev : Event) (a : App) :
    reachableDistinct a → distinctArgs ev →
    reachableDistinct (handle ev a).

(** ** More vocabulary *)

(** [sub] occurs in [s]. *)
Definition occursIn (sub s : string) : Prop :=
  ∃ before after, s = before +:+ sub +:+ after.

(** A string without any comma. *)
Definition lacksComma (s : string) : Prop :=
  ","%char ∉ list_ascii_of_string s.

(** A path that is an own key of the registry or no member name of
    [Object.prototype]: reading it finds an own property or nothing. *)
Definition plainLookup (r : Registry) (p : string) : Prop :=
  is_Some (stored r !! p) ∨ inherited p = false.

(** Every entry is stored under its own [path]; the active pointer, if
    set, selects an entry; stray objects sit under member names of
    [Object.prototype] only. *)
Definition wellFormed (a : App) : Prop :=
  (∀ p e, processedFiles a !! p = Some e → path e = p) ∧
  (∀ p, activeFile a = Some p → is_Some (processedFiles a !! p)) ∧
  (∀ p html, stored (processedFiles a) !! p = Some (Stray html) →
             inherited p = true).

(** No active entry waits for a generation, and the active prop is an
    entry or nothing. *)
Definition idle (a : App) : Prop :=
  activeIsNoEntry a = false ∧
  ∀ af, activeFileData a = Some af → needsGeneration af = false.

(** A list of [onStreamUpdate(path, chunk)] calls, run one after the
    other. *)
Definition deliver (updates : list (string * string)) (a : App) : App :=
  foldl (λ st u, handleStreamUpdate u.1 u.2 st) a updates.

(** The chunks among [updates] that are addressed to [p], in order. *)
Definition chunksFor (p : string) (updates : list (string * string))
    : list string :=
  snd <$> filter (λ u, u.1 = p) updates.

(** What the own property [p] holds after the chunks [chunks] were
    delivered to it, given what it held before. *)
Definition afterChunks (p : string) (chunks : list string)
    (before : option Stored) : option Stored :=
  match before with
  | Some (Entry e) =>
      Some (Entry (withOutput e (generatedHtml e +:+ joined chunks)))
  | Some (Stray html) => Some (Stray (html +:+ joined chunks))
  | None =>
      if inherited p && negb (bool_decide (chunks = []))
      then Some (Stray ("undefined" +:+ joined chunks))
      else None
  end.

(** The App callback [handleFileChange] invokes, if it invokes one. *)
Definition fileChangeCallback (activeFile : option ProcessedFile)
    (outcome : ReadOutcome) : option Event :=
  match outcome with
  | AllRead [] => None
  | AllRead (f :: rest) =>
      match activeFile with
      | Some af => Some (AddFilesToProject (path af) (f :: rest))
      | None =>
          Some (GenerationStart
                  (mkFileData (projectNameOf f rest) (projectNameOf f rest)
                     (f :: rest)))
      end
  | ReadFailed _ => None
  end.

(** The entry after [newFiles] were offered to it: itself when none of them
    has a new name, else with the new-named ones appended and the output
    emptied. *)
Definition afterAppend (e : ProcessedFile) (newFiles : list ProjectFile.t)
    : ProcessedFile :=
  match freshFiles e newFiles with
  | [] => e
  | added =>
      {| name := name e; path := path e;
         sourceFiles := sourceFiles e ++ added; generatedHtml := "" |}
  end.

(** * Properties *)

(** ** Basic facts on strings and states *)

Lemma append_nil_r (s : string) : s +:+ "" = s.
Proof.
  induction s as [|a s IH]; [reflexivity|].
  change (String a (s +:+ "") = String a s). by rewrite IH.
Qed.

Lemma append_assoc (s1 s2 s3 : string) :
  (s1 +:+ s2) +:+ s3 = s1 +:+ (s2 +:+ s3).
Proof.
  induction s1 as [|a s1 IH]; [reflexivity|].
  change (String a ((s1 +:+ s2) +:+ s3) = String a (s1 +:+ (s2 +:+ s3))).
  by rewrite IH.
Qed.

Lemma App_eq (a b : App) :
  processedFiles a = processedFiles b → activeFile a = activeFile b → a = b.
Proof. destruct a, b. cbn. by intros -> ->. Qed.

Lemma withOutput_same (e : ProcessedFile) : withOutput e (generatedHtml e) = e.
Proof. by destruct e. Qed.

Lemma withOutput_withOutput (e : ProcessedFile) (h1 h2 : string) :
  withOutput (withOutput e h1) h2 = withOutput e h2.
Proof. reflexivity. Qed.

(** ** The registry object *)

Lemma reg_lookup_unfold (r : Registry) (p : string) :
  r !! p = match stored r !! p with
           | Some (Entry e) => Some e
           | _ => None
           end.
Proof. reflexivity. Qed.

Lemma stored_insert (r : Registry) (p : string) (e : ProcessedFile) :
  stored (<[p := e]> r) = <[p := Entry e]> (stored r).
Proof. reflexivity. Qed.

Lemma stored_storeStray (r : Registry) (p html : string) :
  stored (storeStray p html r) = <[p := Stray html]> (stored r).
Proof. reflexivity. Qed.

Lemma reg_lookup_stored (r : Registry) (p : string) (e : ProcessedFile) :
  r !! p = Some e ↔ stored r !! p = Some (Entry e).
Proof.
  rewrite reg_lookup_unfold.
  destruct (stored r !! p) as [[e'|h]|]; split; congruence.
Qed.

Lemma reg_lookup_insert_eq (r : Registry) (p : string) (e : ProcessedFile) :
  <[p := e]> r !! p = Some e.
Proof. apply reg_lookup_stored. rewrite stored_insert. apply lookup_insert_eq. Qed.

Lemma reg_lookup_insert_ne (r : Registry) (p q : string) (e : ProcessedFile) :
  p ≠ q → <[p := e]> r !! q = r !! q.
Proof.
  intros Hne. rewrite !reg_lookup_unfold, stored_insert.
  by rewrite lookup_insert_ne.
Qed.

Lemma reg_lookup_empty (p : string) : (∅ : Registry) !! p = None.
Proof. reflexivity. Qed.

Lemma Registry_eq (r1 r2 : Registry) : stored r1 = stored r2 → r1 = r2.
Proof. destruct r1, r2. cbn. by intros ->. Qed.

Lemma reg_insert_insert_eq (r : Registry) (p : string) (e e' : ProcessedFile) :
  <[p := e']> (<[p := e]> r) = <[p := e']> r.
Proof. apply Registry_eq. rewrite !stored_insert. apply insert_insert_eq. Qed.

Lemma reg_insert_id (r : Registry) (p : string) (e : ProcessedFile) :
  r !! p = Some e → <[p := e]> r = r.
Proof.
  intros He%reg_lookup_stored. apply Registry_eq. rewrite stored_insert.
  by apply insert_id.
Qed.

Lemma reg_lookup_storeStray_ne (r : Registry) (p q html : string) :
  p ≠ q → storeStray p html r !! q = r !! q.
Proof.
  intros Hne. rewrite !reg_lookup_unfold, stored_storeStray.
  by rewrite lookup_insert_ne.
Qed.

Lemma reg_lookup_storeStray_eq (r : Registry) (p html : string) :
  storeStray p html r !! p = None.
Proof.
  rewrite reg_lookup_unfold, stored_storeStray. by rewrite lookup_insert_eq.
Qed.

Lemma reg_dom_unfold (r : Registry) : dom r = dom (stored r).
Proof. reflexivity. Qed.

Lemma reg_dom_insert (r : Registry) (p : string) (e : ProcessedFile) :
  dom (<[p := e]> r) = {[p]} ∪ dom r.
Proof. rewrite !reg_dom_unfold, stored_insert. apply dom_insert_L. Qed.

Lemma reg_dom_insert_lookup (r : Registry) (p : string) (e e' : ProcessedFile) :
  r !! p = Some e → dom (<[p := e']> r) = dom r.
Proof.
  intros He%reg_lookup_stored. rewrite !reg_dom_unfold, stored_insert.
  apply dom_insert_lookup_L. by rewrite He.
Qed.

Lemma jsGet_entry (r : Registry) (p : string) (e : ProcessedFile) :
  jsGet r p = FoundEntry e ↔ r !! p = Some e.
Proof.
  rewrite reg_lookup_stored. unfold jsGet.
  destruct (stored r !! p) as [[e'|h]|]; [| |destruct (inherited p)];
    split; congruence.
Qed.

Lemma jsGet_of_lookup (r : Registry) (p : string) (e : ProcessedFile) :
  r !! p = Some e → jsGet r p = FoundEntry e.
Proof. apply jsGet_entry. Qed.

(** Reading a path that holds no entry. *)
Lemma jsGet_no_entry (r : Registry) (p : string) :
  r !! p = None →
  (∃ html, stored r !! p = Some (Stray html) ∧ jsGet r p = FoundStray html) ∨
  (stored r !! p = None ∧ inherited p = true ∧ jsGet r p = FoundInherited) ∨
  (stored r !! p = None ∧ inherited p = false ∧ jsGet r p = NotFound).
Proof.
  rewrite reg_lookup_unfold. unfold jsGet.
  destruct (stored r !! p) as [[e|h]|]; [discriminate|eauto|].
  intros _. destruct (inherited p); eauto.
Qed.

(** ** Creating an entry *)

(** C4.  [createEntry(name, path, sourceFiles)] maps [path] to the entry
    made of the three arguments and the empty output, makes [path] the
    active pointer and leaves every other path alone; an entry that was
    already stored at [path] is replaced as a whole, so the result does not
    depend on it. *)
Theorem C4_createEntry_inserts_and_activates
    (a : App) (n p : string) (files : list ProjectFile.t) :
  let a' := handleGenerationStart (mkFileData n p files) a in
  processedFiles a' !! p = Some (mkProcessedFile n p files "") ∧
  activeFile a' = Some p ∧
  (∀ q, q ≠ p → processedFiles a' !! q = processedFiles a !! q) ∧
  (∀ old,
     handleGenerationStart (mkFileData n p files)
       (mkApp (<[p := old]> (processedFiles a)) (activeFile a)) = a').
Proof.
  cbn. split_and!.
  - apply reg_lookup_insert_eq.
  - reflexivity.
  - intros q Hq. by apply reg_lookup_insert_ne.
  - intros old. unfold handleGenerationStart. cbn. f_equal.
    apply reg_insert_insert_eq.
Qed.

(** Creating ["a.js"] next to a finished entry ["b.js"]: the latter is
    untouched. *)
Lemma C4_createEntry_witness :
  let eb := mkProcessedFile "b.js" "b.js" [ProjectFile.mk "b.js" "2"] "<b>" in
  let a := mkApp {[ "b.js" := eb ]} (Some "b.js") in
  processedFiles
    (handleGenerationStart
       (mkFileData "a.js" "a.js" [ProjectFile.mk "a.js" "1"]) a) !! "b.js" =
  Some eb.
Proof.
  intros eb a.
  refine (proj1 (proj2 (proj2
            (C4_createEntry_inserts_and_activates a "a.js" "a.js"
               [ProjectFile.mk "a.js" "1"]))) "b.js" _).
  discriminate.
Defined.

(** ** Appending source files *)

Lemma elem_of_existingFileNames (e : ProcessedFile) (n : string) :
  n ∈ existingFileNames e ↔ n ∈ sourceNames e.
Proof. unfold existingFileNames, sourceNames. apply elem_of_list_to_set. Qed.

Lemma uniqueNewFiles_freshFiles (e : ProcessedFile)
    (newFiles : list ProjectFile.t) :
  uniqueNewFiles e newFiles = freshFiles e newFiles.
Proof.
  unfold uniqueNewFiles, freshFiles.
  induction newFiles as [|f fs IH]; [reflexivity|].
  cbn [List.filter]. rewrite IH, filter_cons.
  destruct (decide (ProjectFile.name f ∉ sourceNames e)) as [Hn|Hn].
  - rewrite bool_decide_eq_false_2; [reflexivity|].
    by rewrite elem_of_existingFileNames.
  - rewrite bool_decide_eq_true_2; [reflexivity|].
    rewrite elem_of_existingFileNames.
    by destruct (decide (ProjectFile.name f ∈ sourceNames e)).
Qed.

Lemma freshFiles_nil_iff (e : ProcessedFile) (newFiles : list ProjectFile.t) :
  freshFiles e newFiles = [] ↔
  Forall (λ f, ProjectFile.name f ∈ sourceNames e) newFiles.
Proof.
  unfold freshFiles. induction newFiles as [|f fs IH].
  - split; [constructor | reflexivity].
  - rewrite filter_cons, Forall_cons.
    destruct (decide (ProjectFile.name f ∉ sourceNames e)) as [Hn|Hn].
    + split; [discriminate | tauto].
    + rewrite IH. apply dec_stable in Hn. tauto.
Qed.

Lemma freshFiles_cons_iff (e : ProcessedFile) (newFiles : list ProjectFile.t) :
  freshFiles e newFiles ≠ [] ↔
  Exists (λ f, ProjectFile.name f ∉ sourceNames e) newFiles.
Proof.
  rewrite freshFiles_nil_iff. split.
  - intros H. by apply not_Forall_Exists in H; [|apply _].
  - intros Hex Hall. apply Exists_exists in Hex as (f & Hf & Hnew).
    rewrite Forall_forall in Hall. by apply Hnew, Hall.
Qed.

(** The updater of [handleAddFilesToProject] in the words of the
    specification. *)
Lemma addFilesUpdater_spec (p : string) (newFiles : list ProjectFile.t)
    (prev : Registry) :
  addFilesUpdater p newFiles prev =
    match jsGet prev p with
    | NotFound => Kept
    | FoundEntry e =>
        match freshFiles e newFiles with
        | [] => Kept
        | added =>
            Replaced
              (<[p := {| name := name e; path := path e;
                         sourceFiles := sourceFiles e ++ added;
                         generatedHtml := "" |}]> prev)
        end
    | FoundStray _ => Threw
    | FoundInherited => Threw
    end.
Proof.
  unfold addFilesUpdater. destruct (jsGet prev p) as [e|h| |]; try reflexivity.
  rewrite uniqueNewFiles_freshFiles.
  by destruct (freshFiles e newFiles).
Qed.

Lemma addFilesUpdater_entry (p : string) (newFiles : list ProjectFile.t)
    (prev : Registry) (e : ProcessedFile) :
  prev !! p = Some e →
  addFilesUpdater p newFiles prev =
    match freshFiles e newFiles with
    | [] => Kept
    | added =>
        Replaced
          (<[p := {| name := name e; path := path e;
                     sourceFiles := sourceFiles e ++ added;
                     generatedHtml := "" |}]> prev)
    end.
Proof.
  intros He. by rewrite addFilesUpdater_spec, (jsGet_of_lookup _ _ _ He).
Qed.

(** The entries after an append. *)
Lemma handleAddFilesToProject_lookup (p : string)
    (newFiles : list ProjectFile.t) (a : App) (q : string) :
  processedFiles (handleAddFilesToProject p newFiles a) !! q =
    if decide (q = p)
    then (λ e, afterAppend e newFiles) <$> processedFiles a !! p
    else processedFiles a !! q.
Proof.
  unfold handleAddFilesToProject. cbn [processedFiles].
  destruct (processedFiles a !! p) as [e|] eqn:He.
  - rewrite (addFilesUpdater_entry _ _ _ _ He). unfold afterAppend.
    cbn [fmap option_fmap option_map].
    destruct (freshFiles e newFiles) as [|f added]; cbn [setState].
    + destruct (decide (q = p)) as [->|]; [by rewrite He | done].
    + destruct (decide (q = p)) as [->|].
      * by rewrite reg_lookup_insert_eq.
      * by rewrite reg_lookup_insert_ne.
  - rewrite addFilesUpdater_spec.
    destruct (jsGet_no_entry _ _ He) as [(h & _ & ->)|[(_ & _ & ->)|(_ & _ & ->)]];
      cbn [setState]; destruct (decide (q = p)) as [->|]; by rewrite ?He.
Qed.

(** What [appendSourceFiles] does on a path that reads as nothing or as an
    entry: nothing when the path is not found or no file has a new name;
    otherwise the files with new names are appended, in their order, and
    the output is emptied. *)
Lemma handleAddFilesToProject_cases
    (a : App) (p : string) (newFiles : list ProjectFile.t) :
  let a' := handleAddFilesToProject p newFiles a in
  (jsGet (processedFiles a) p = NotFound → a' = a) ∧
  (∀ e, processedFiles a !! p = Some e →
        Forall (λ f, ProjectFile.name f ∈ sourceNames e) newFiles →
        a' = a) ∧
  (∀ e, processedFiles a !! p = Some e →
        Exists (λ f, ProjectFile.name f ∉ sourceNames e) newFiles →
        processedFiles a' =
          <[p := {| name := name e; path := path e;
                    sourceFiles := sourceFiles e ++ freshFiles e newFiles;
                    generatedHtml := "" |}]> (processedFiles a) ∧
        activeFile a' = activeFile a ∧
        (∀ q, q ≠ p → processedFiles a' !! q = processedFiles a !! q)).
Proof.
  destruct a as [reg act].
  unfold handleAddFilesToProject. cbn [processedFiles activeFile].
  split_and!.
  - intros Hnone. by rewrite addFilesUpdater_spec, Hnone.
  - intros e He Hall. rewrite (addFilesUpdater_entry _ _ _ _ He).
    apply freshFiles_nil_iff in Hall. by rewrite Hall.
  - intros e He Hex. rewrite (addFilesUpdater_entry _ _ _ _ He).
    apply freshFiles_cons_iff in Hex.
    destruct (freshFiles e newFiles) as [|f fs] eqn:Hfresh; [done|].
    cbn. split_and!; [reflexivity | reflexivity |].
    intros q Hq. by apply reg_lookup_insert_ne.
Qed.

(** C1 at a path that names a member of [Object.prototype].  One file
    named ["toString"] was uploaded, which made the entry ["toString"];
    the registry was then reset, so ["toString"] is no key any more.  An
    append to that path (from the file handler that was waiting for its
    reads) finds the inherited function instead of nothing: the updater
    throws, the registry is not returned unchanged, and the page is
    unmounted. *)
Theorem C1_append_to_inherited_name_throws :
  let ft := ProjectFile.mk "toString" "1" in
  let fb := ProjectFile.mk "b.js" "2" in
  let a1 := handle (GenerationStart (mkFileData "toString" "toString" [ft]))
                   initialApp in
  let a2 := handle Reset a1 in
  processedFiles a1 !! "toString" =
    Some (mkProcessedFile "toString" "toString" [ft] "") ∧
  processedFiles a2 !! "toString" = None ∧
  ("toString" ∉ dom (processedFiles a2)) ∧
  jsGet (processedFiles a2) "toString" = FoundInherited ∧
  addFilesUpdater "toString" [fb] (processedFiles a2) = Threw ∧
  addFilesUpdater "toString" [fb] (processedFiles a2) ≠ Kept ∧
  dispatch (Callback (AddFilesToProject "toString" [fb]))
           (mkSession a2 initialView) = None.
Proof.
  cbn zeta. split_and!; try reflexivity.
  - apply not_elem_of_empty.
  - discriminate.
Qed.

(** ** Appending output chunks *)

Lemma streamUpdater_spec (p chunk : string) (prevFiles : Registry) :
  streamUpdater p chunk prevFiles =
    match jsGet prevFiles p with
    | FoundEntry e =>
        Replaced (<[p := withOutput e (generatedHtml e +:+ chunk)]> prevFiles)
    | FoundStray html => Replaced (storeStray p (html +:+ chunk) prevFiles)
    | FoundInherited =>
        Replaced (storeStray p ("undefined" +:+ chunk) prevFiles)
    | NotFound => Kept
    end.
Proof. reflexivity. Qed.

Lemma handleStreamUpdate_NotFound (p chunk : string) (a : App) :
  jsGet (processedFiles a) p = NotFound → handleStreamUpdate p chunk a = a.
Proof.
  intros H. unfold handleStreamUpdate. rewrite streamUpdater_spec, H.
  by destruct a.
Qed.

Lemma handleStreamUpdate_Some (p chunk : string) (a : App)
    (e : ProcessedFile) :
  processedFiles a !! p = Some e →
  handleStreamUpdate p chunk a =
    mkApp (<[p := withOutput e (generatedHtml e +:+ chunk)]> (processedFiles a))
          (activeFile a).
Proof.
  intros H. unfold handleStreamUpdate.
  by rewrite streamUpdater_spec, (jsGet_of_lookup _ _ _ H).
Qed.

Lemma jsGet_storeStray (r : Registry) (p html : string) :
  jsGet (storeStray p html r) p = FoundStray html.
Proof. unfold jsGet. by rewrite stored_storeStray, lookup_insert_eq. Qed.

Lemma storeStray_storeStray (r : Registry) (p h h' : string) :
  storeStray p h' (storeStray p h r) = storeStray p h' r.
Proof.
  apply Registry_eq. rewrite !stored_storeStray. apply insert_insert_eq.
Qed.

Lemma storeStray_id (r : Registry) (p h : string) :
  stored r !! p = Some (Stray h) → storeStray p h r = r.
Proof.
  intros H. apply Registry_eq. rewrite stored_storeStray. by apply insert_id.
Qed.

Lemma handleStreamUpdate_stray (p chunk : string) (a : App) (html : string) :
  jsGet (processedFiles a) p = FoundStray html →
  handleStreamUpdate p chunk a =
    mkApp (storeStray p (html +:+ chunk) (processedFiles a)) (activeFile a).
Proof.
  intros H. unfold handleStreamUpdate. by rewrite streamUpdater_spec, H.
Qed.

Lemma handleStreamUpdate_inherited (p chunk : string) (a : App) :
  jsGet (processedFiles a) p = FoundInherited →
  handleStreamUpdate p chunk a =
    mkApp (storeStray p ("undefined" +:+ chunk) (processedFiles a))
          (activeFile a).
Proof.
  intros H. unfold handleStreamUpdate. by rewrite streamUpdater_spec, H.
Qed.

(** The entries after a chunk. *)
Lemma handleStreamUpdate_lookup (p chunk : string) (a : App) (q : string) :
  processedFiles (handleStreamUpdate p chunk a) !! q =
    if decide (q = p)
    then (λ e, withOutput e (generatedHtml e +:+ chunk))
           <$> processedFiles a !! p
    else processedFiles a !! q.
Proof.
  destruct (processedFiles a !! p) as [e|] eqn:He.
  - rewrite (handleStreamUpdate_Some _ _ _ _ He). cbn [processedFiles].
    destruct (decide (q = p)) as [->|].
    + by rewrite reg_lookup_insert_eq.
    + by rewrite reg_lookup_insert_ne.
  - unfold handleStreamUpdate. cbn [processedFiles].
    rewrite streamUpdater_spec.
    destruct (jsGet_no_entry _ _ He) as [(h & _ & ->)|[(_ & _ & ->)|(_ & _ & ->)]];
      cbn [setState]; destruct (decide (q = p)) as [->|];
      rewrite ?reg_lookup_storeStray_eq, ?reg_lookup_storeStray_ne, ?He by done;
      reflexivity.
Qed.

(** Delivering a whole list of chunks to one path that holds an entry. *)
Lemma handleStreamUpdate_chunks (p : string) (chunks : list string) (a : App)
    (e : ProcessedFile) :
  processedFiles a !! p = Some e →
  foldl (λ st chunk, handleStreamUpdate p chunk st) a chunks =
    mkApp (<[p := withOutput e (generatedHtml e +:+ joined chunks)]>
             (processedFiles a))
          (activeFile a).
Proof.
  revert a e. induction chunks as [|c cs IH]; intros a e He.
  - cbn. unfold joined. cbn. rewrite append_nil_r, withOutput_same.
    rewrite reg_insert_id by done. by destruct a.
  - cbn [foldl]. rewrite (handleStreamUpdate_Some _ _ _ _ He).
    erewrite IH; [|cbn; apply reg_lookup_insert_eq].
    cbn. rewrite reg_insert_insert_eq, withOutput_withOutput, append_assoc.
    reflexivity.
Qed.

(** What [appendOutputChunk] does on a path that reads as nothing or as an
    entry: nothing, or the chunk is added at the end of the output of that
    entry and nothing else changes. *)
Lemma handleStreamUpdate_cases (a : App) (p chunk : string) :
  let a' := handleStreamUpdate p chunk a in
  (jsGet (processedFiles a) p = NotFound → a' = a) ∧
  (∀ e, processedFiles a !! p = Some e →
        processedFiles a' !! p =
          Some {| name := name e; path := path e;
                  sourceFiles := sourceFiles e;
                  generatedHtml := generatedHtml e +:+ chunk |} ∧
        (∀ q, q ≠ p → processedFiles a' !! q = processedFiles a !! q) ∧
        activeFile a' = activeFile a) ∧
  (∀ e, processedFiles a !! p = Some e → generatedHtml e = "" →
        processedFiles
          (handleStreamUpdate p "c"
             (handleStreamUpdate p "b" (handleStreamUpdate p "a" a))) !! p =
          Some {| name := name e; path := path e;
                  sourceFiles := sourceFiles e; generatedHtml := "abc" |}).
Proof.
  cbn zeta. split_and!.
  - apply handleStreamUpdate_NotFound.
  - intros e He. rewrite (handleStreamUpdate_Some _ _ _ _ He). cbn.
    split_and!; [apply reg_lookup_insert_eq | | reflexivity].
    intros q Hq. by apply reg_lookup_insert_ne.
  - intros e He Hout.
    pose proof (handleStreamUpdate_chunks p ["a"; "b"; "c"] a e He) as H.
    cbn [foldl] in H. rewrite H. cbn [processedFiles].
    rewrite reg_lookup_insert_eq, Hout. reflexivity.
Qed.

(** C2 at a path that names a member of [Object.prototype].  The registry
    is empty, so ["constructor"] is no key.  A chunk for that path finds
    the inherited function, which is truthy: the updater returns a new
    registry with the own key ["constructor"], holding an object whose
    only field is [generatedHtml], with the text ["undefinedx"]; [App]
    renders again. *)
Theorem C2_chunk_for_inherited_name_adds_a_key :
  let a := initialApp in
  let a' := handleStreamUpdate "constructor" "x" a in
  processedFiles a !! "constructor" = None ∧
  ("constructor" ∉ dom (processedFiles a)) ∧
  stored (processedFiles a') !! "constructor" = Some (Stray "undefinedx") ∧
  dom (processedFiles a') = {[ "constructor" ]} ∧
  a' ≠ a ∧
  rerenders (StreamUpdate "constructor" "x") a = true.
Proof.
  cbn zeta. split_and!; try reflexivity.
  - apply not_elem_of_empty.
  - discriminate.
Qed.

(** C10.  Two chunks delivered one after the other to a path have the
    effect of their concatenation delivered at once; and on a path that
    is an own key (in particular one that holds an entry), or that is no
    member name of [Object.prototype], the empty chunk changes nothing:
    the stored output depends on the text delivered, not on how the
    stream was cut into chunks. *)
Theorem C10_chunks_compose (a : App) (p s1 s2 : string) :
  handleStreamUpdate p s2 (handleStreamUpdate p s1 a) =
    handleStreamUpdate p (s1 +:+ s2) a ∧
  (plainLookup (processedFiles a) p → handleStreamUpdate p "" a = a).
Proof.
  destruct (processedFiles a !! p) as [e|] eqn:He.
  - split.
    + rewrite (handleStreamUpdate_Some p s1 a e He).
      rewrite (handleStreamUpdate_Some p (s1 +:+ s2) a e He).
      erewrite handleStreamUpdate_Some; [|cbn; apply reg_lookup_insert_eq].
      cbn. rewrite reg_insert_insert_eq, withOutput_withOutput, append_assoc.
      reflexivity.
    + intros _. rewrite (handleStreamUpdate_Some p "" a e He).
      rewrite append_nil_r, withOutput_same, reg_insert_id by done.
      by destruct a.
  - destruct (jsGet_no_entry _ _ He)
      as [(h & Hst & Hget)|[(Hst & Hinh & Hget)|(Hst & Hinh & Hget)]].
    + rewrite (handleStreamUpdate_stray _ s1 _ _ Hget).
      rewrite (handleStreamUpdate_stray _ (s1 +:+ s2) _ _ Hget).
      rewrite (handleStreamUpdate_stray _ "" _ _ Hget).
      erewrite handleStreamUpdate_stray; [|cbn; apply jsGet_storeStray].
      cbn. rewrite storeStray_storeStray, append_assoc, append_nil_r.
      split; [reflexivity|]. intros _.
      rewrite storeStray_id by done. by destruct a.
    + rewrite (handleStreamUpdate_inherited _ s1 _ Hget).
      rewrite (handleStreamUpdate_inherited _ (s1 +:+ s2) _ Hget).
      erewrite handleStreamUpdate_stray; [|cbn; apply jsGet_storeStray].
      cbn. rewrite storeStray_storeStray, append_assoc.
      split; [reflexivity|]. intros [[x Hx]|Hplain]; congruence.
    + rewrite (handleStreamUpdate_NotFound p s1 a Hget).
      rewrite (handleStreamUpdate_NotFound p s2 a Hget).
      rewrite (handleStreamUpdate_NotFound p (s1 +:+ s2) a Hget).
      rewrite (handleStreamUpdate_NotFound p "" a Hget). by split.
Qed.

(** An entry with the output ["ab"]: the empty chunk leaves it alone. *)
Lemma C10_chunks_compose_witness :
  let e := mkProcessedFile "x.py" "x.py" [ProjectFile.mk "x.py" "print(1)"]
             "ab" in
  let a := mkApp {[ "x.py" := e ]} (Some "x.py") in
  handleStreamUpdate "x.py" "" a = a.
Proof.
  intros e a. refine (proj2 (C10_chunks_compose a "x.py" "" "") _).
  left. by eexists.
Defined.

(** Without an own key, under a member name of [Object.prototype], the
    empty chunk does change the registry. *)
Example empty_chunk_for_inherited_name :
  handleStreamUpdate "constructor" "" initialApp ≠ initialApp ∧
  stored (processedFiles (handleStreamUpdate "constructor" "" initialApp))
    !! "constructor" = Some (Stray "undefined").
Proof. split; [discriminate | reflexivity]. Qed.

(** ** Reset *)

(** C5 at a path that names a member of [Object.prototype].  One file
    named ["toString"] was uploaded, so ["toString"] was a key; after
    [reset()] the registry is empty and the pointer cleared, but a chunk
    of the call still in flight finds the inherited function under that
    path: the registry gets the own key ["toString"] back, holding an
    object whose only field is [generatedHtml], and [App] renders again.
    The state is not left unchanged. *)
Theorem C5_chunk_after_reset_for_inherited_name :
  let ft := ProjectFile.mk "toString" "1" in
  let a1 := handle (GenerationStart (mkFileData "toString" "toString" [ft]))
                   initialApp in
  let a2 := handleReset a1 in
  let a3 := handleStreamUpdate "toString" "x" a2 in
  is_Some (processedFiles a1 !! "toString") ∧
  dom (processedFiles a2) = ∅ ∧
  activeFile a2 = None ∧
  stored (processedFiles a3) !! "toString" = Some (Stray "undefinedx") ∧
  dom (processedFiles a3) = {[ "toString" ]} ∧
  a3 ≠ a2 ∧
  dispatch (Callback (StreamUpdate "toString" "x")) (mkSession a2 initialView) =
    Some (mkSession a3 initialView, []).
Proof.
  cbn zeta. split_and!; try reflexivity.
  - by eexists.
  - discriminate.
Qed.

(** After [reset()] the registry is empty and the pointer cleared, and a
    chunk for a path that is no member name of [Object.prototype] changes
    nothing. *)
Lemma handleReset_then_chunk (a : App) (p chunk : string) :
  processedFiles (handleReset a) = ∅ ∧
  activeFile (handleReset a) = None ∧
  (inherited p = false →
     handleStreamUpdate p chunk (handleReset a) = handleReset a).
Proof.
  split_and!; [reflexivity | reflexivity |].
  intros Hp. apply handleStreamUpdate_NotFound. cbn. unfold jsGet.
  change (stored ∅ !! p) with ((∅ : gmap string Stored) !! p).
  by rewrite lookup_empty, Hp.
Qed.

(** ** Uniqueness of source-file names *)

Lemma freshFiles_names_NoDup (e : ProcessedFile)
    (newFiles : list ProjectFile.t) :
  NoDup (sourceNames e) →
  NoDup (ProjectFile.name <$> newFiles) →
  NoDup (ProjectFile.name <$> (sourceFiles e ++ freshFiles e newFiles)).
Proof.
  intros Hold Hnew. rewrite fmap_app. apply NoDup_app. split_and!.
  - exact Hold.
  - intros n Hn (f & -> & Hf)%list_elem_of_fmap.
    by apply list_elem_of_filter in Hf as [Hfresh _].
  - eapply sublist_NoDup; [exact Hnew|].
    apply fmap_sublist, sublist_filter.
Qed.

Lemma afterAppend_names_NoDup (e : ProcessedFile)
    (newFiles : list ProjectFile.t) :
  NoDup (sourceNames e) →
  NoDup (ProjectFile.name <$> newFiles) →
  NoDup (sourceNames (afterAppend e newFiles)).
Proof.
  intros Hold Hnew. unfold afterAppend.
  destruct (freshFiles e newFiles) as [|f added] eqn:Hfresh; [exact Hold|].
  unfold sourceNames. cbn [sourceFiles]. rewrite <- Hfresh.
  by apply freshFiles_names_NoDup.
Qed.

Lemma namesUnique_handle (ev : Event) (a : App) :
  distinctArgs ev → namesUnique a → namesUnique (handle ev a).
Proof.
  intros Hargs Hinv q e'. destruct ev as [fd | p fs | p chunk | ]; cbn [handle].
  - cbn. destruct (decide (q = fd_path fd)) as [->|Hq].
    + rewrite reg_lookup_insert_eq. intros [= <-]. exact Hargs.
    + rewrite reg_lookup_insert_ne by done. apply Hinv.
  - rewrite handleAddFilesToProject_lookup.
    destruct (decide (q = p)) as [->|Hq]; [|apply Hinv].
    destruct (processedFiles a !! p) as [e|] eqn:He; [|discriminate].
    cbn. intros [= <-].
    apply afterAppend_names_NoDup; [exact (Hinv _ _ He) | exact Hargs].
  - rewrite handleStreamUpdate_lookup.
    destruct (decide (q = p)) as [->|Hq]; [|apply Hinv].
    destruct (processedFiles a !! p) as [e|] eqn:He; [|discriminate].
    cbn. intros [= <-]. exact (Hinv _ _ He).
  - cbn. by rewrite reg_lookup_empty.
Qed.

(** C3, as stated, fails.  Nothing filters the files an entry is created
    with, and a source-file append filters the new files against the names
    already stored only, not against each other: creating an entry from two
    files named ["a.js"], or appending two files named ["b.js"] to an entry
    that holds ["a.js"], leads to a reachable state with a repeated name. *)
Lemma C3_counterexample :
  let fa := ProjectFile.mk "a.js" "1" in
  let fb := ProjectFile.mk "b.js" "2" in
  let created := handle (GenerationStart (mkFileData "proj" "proj" [fa; fa]))
                        initialApp in
  let appended :=
    handle (AddFilesToProject "proj" [fb; fb])
      (handle (GenerationStart (mkFileData "proj" "proj" [fa])) initialApp) in
  (reachable created ∧ ¬ namesUnique created) ∧
  (reachable appended ∧ ¬ namesUnique appended) ∧
  ¬ (∀ a, reachable a → namesUnique a).
Proof.
  intros fa fb created appended.
  assert (Hc : ¬ namesUnique created).
  { intros H.
    specialize (H "proj" (mkProcessedFile "proj" "proj" [fa; fa] "") eq_refl).
    apply NoDup_cons_1_1 in H. apply H. by left. }
  assert (Ha : ¬ namesUnique appended).
  { intros H.
    specialize (H "proj" (mkProcessedFile "proj" "proj" [fa; fb; fb] "")
                  eq_refl).
    apply NoDup_cons_1_2, NoDup_cons_1_1 in H. apply H. by left. }
  assert (Hrc : reachable created) by (repeat constructor).
  assert (Hra : reachable appended) by (repeat constructor).
  split_and!; try done. intros H. by apply Hc, H.
Qed.

(** C3, amended.  In every state reached from the empty registry by
    operations whose file arguments carry pairwise distinct names (the
    files an entry is created with, and the files of one append), the
    source-file names of every entry are pairwise distinct. *)
Theorem C3_names_unique_for_distinct_arguments (a : App) :
  reachableDistinct a → namesUnique a.
Proof.
  induction 1 as [|ev a Hreach IH Hargs].
  - intros p e. cbn. by rewrite reg_lookup_empty.
  - by apply namesUnique_handle.
Qed.

(** The second end-to-end scenario, from the start: ["proj"] is created
    with ["a.js"], then ["a.js"] and ["b.js"] are added. *)
Lemma C3_names_unique_witness :
  let fa := ProjectFile.mk "a.js" "1" in
  let fb := ProjectFile.mk "b.js" "2" in
  namesUnique
    (handle (AddFilesToProject "proj" [fa; fb])
       (handle (GenerationStart (mkFileData "proj" "proj" [fa])) initialApp)).
Proof.
  intros fa fb. apply C3_names_unique_for_distinct_arguments.
  apply reachableDistinct_step; [apply reachableDistinct_step|].
  - apply reachableDistinct_init.
  - cbn. apply NoDup_singleton.
  - cbn. apply NoDup_cons. split; [|apply NoDup_singleton].
    intros H. apply list_elem_of_In in H. cbn in H.
    destruct H as [H|[]]. discriminate H.
Defined.

(** ** [trim] and [includes] *)

Lemma whitespaceOnly_nil : whitespaceOnly "".
Proof. constructor. Qed.

Lemma whitespaceOnly_cons (c : ascii) (s : string) :
  whitespaceOnly (String c s) ↔ isWhiteSpace c = true ∧ whitespaceOnly s.
Proof. unfold whitespaceOnly. cbn. by rewrite Forall_cons. Qed.

Lemma trimStart_empty_iff (s : string) :
  trimStart s = "" ↔ whitespaceOnly s.
Proof.
  induction s as [|c s IH]; [by split; auto using whitespaceOnly_nil|].
  rewrite whitespaceOnly_cons. cbn.
  destruct (isWhiteSpace c).
  - rewrite IH. tauto.
  - split; [discriminate | by intros [? _]].
Qed.

Lemma trimEnd_empty_iff (s : string) :
  trimEnd s = "" ↔ whitespaceOnly s.
Proof.
  induction s as [|c s IH]; [by split; auto using whitespaceOnly_nil|].
  rewrite whitespaceOnly_cons, <- IH. cbn.
  destruct (trimEnd s) as [|d t]; destruct (isWhiteSpace c);
    (split; [try discriminate; tauto | intros [? ?]; congruence]).
Qed.

Lemma whitespaceOnly_trimStart (s : string) :
  whitespaceOnly (trimStart s) ↔ whitespaceOnly s.
Proof.
  induction s as [|c s IH]; [reflexivity|].
  cbn. destruct (isWhiteSpace c) eqn:Hc; [|reflexivity].
  rewrite IH, whitespaceOnly_cons. tauto.
Qed.

(** [!s.trim()] holds exactly for the strings made of white space. *)
Lemma trim_empty_iff (s : string) : trim s = "" ↔ whitespaceOnly s.
Proof.
  unfold trim. by rewrite trimEnd_empty_iff, whitespaceOnly_trimStart.
Qed.

Lemma prefix_dot (c : ascii) (s : string) :
  String.prefix "." (String c s) = true ↔ c = "."%char.
Proof.
  change (String.prefix "." (String c s))
    with (if ascii_dec "." c then String.prefix "" s else false).
  destruct (ascii_dec "." c) as [<-|Hne].
  - by destruct s.
  - split; [discriminate | congruence].
Qed.

(** [!s.includes('.')] holds exactly for the strings without a dot. *)
Lemma includes_dot_false_iff (s : string) :
  includes s "." = false ↔ lacksDot s.
Proof.
  unfold lacksDot. induction s as [|c s IH].
  - cbn. split; [intros _ H; inversion H | reflexivity].
  - cbn [includes list_ascii_of_string].
    rewrite orb_false_iff, IH, not_elem_of_cons.
    rewrite <- not_true_iff_false, prefix_dot.
    split; intros [H1 H2]; (split; [congruence | exact H2]).
Qed.

Lemma whitespaceOnly_lacksDot (s : string) : whitespaceOnly s → lacksDot s.
Proof.
  unfold whitespaceOnly, lacksDot. intros Hall Hin.
  rewrite Forall_forall in Hall. specialize (Hall _ Hin). discriminate Hall.
Qed.

(** ** The pasted-code form *)

(** The outcome of a submission, case by case. *)
Lemma handleGenerateFromText_cases (s : Session) :
  let c := pastedCode (view s) in
  let n := inputFileName (view s) in
  handleGenerateFromText s =
    if decide (trim c = "") then
      mkSession (app s) (setValidationError (Some msgNoCode) (view s))
    else if decide (lacksDot n) then
      mkSession (app s) (setValidationError (Some msgBadName) (view s))
    else
      mkSession
        (handleGenerationStart (mkFileData n n [ProjectFile.mk n c]) (app s))
        (setValidationError None (view s)).
Proof.
  cbn zeta. unfold handleGenerateFromText.
  destruct (decide (trim (pastedCode (view s)) = "")) as [Hc|Hc].
  - rewrite bool_decide_eq_true_2 by done. reflexivity.
  - rewrite bool_decide_eq_false_2 by done.
    destruct (decide (lacksDot (inputFileName (view s)))) as [Hn|Hn].
    + apply includes_dot_false_iff in Hn. rewrite Hn.
      rewrite orb_true_r. reflexivity.
    + assert (includes (inputFileName (view s)) "." = true) as ->.
      { rewrite <- includes_dot_false_iff in Hn. by destruct (includes _ _). }
      rewrite bool_decide_eq_false_2; [reflexivity|].
      rewrite trim_empty_iff. intros Hws.
      by apply Hn, whitespaceOnly_lacksDot.
Qed.

(** C8.  Submitting code that is empty or made of white space only sets a
    validation message and creates nothing; submitting other code with a
    file name without a dot does the same; submitting other code under the
    name ["a.txt"] creates, at path ["a.txt"], an entry whose only source
    file is the pasted code under that name and whose output is empty. *)
Theorem C8_pasted_input_validation (s : Session) :
  let c := pastedCode (view s) in
  let n := inputFileName (view s) in
  let s' := handleGenerateFromText s in
  (whitespaceOnly c →
     validationError (view s') = Some msgNoCode ∧ app s' = app s) ∧
  (¬ whitespaceOnly c → lacksDot n →
     validationError (view s') = Some msgBadName ∧ app s' = app s) ∧
  (¬ whitespaceOnly c → n = "a.txt" →
     validationError (view s') = None ∧
     processedFiles (app s') =
       <["a.txt" := mkProcessedFile "a.txt" "a.txt"
                      [ProjectFile.mk "a.txt" c] ""]>
         (processedFiles (app s)) ∧
     activeFile (app s') = Some "a.txt").
Proof.
  cbn zeta. rewrite handleGenerateFromText_cases. cbn zeta.
  split_and!.
  - intros Hws%trim_empty_iff. by rewrite decide_True.
  - intros Hws Hdot. rewrite <- trim_empty_iff in Hws.
    by rewrite decide_False, decide_True.
  - intros Hws Hn. rewrite <- trim_empty_iff in Hws.
    rewrite decide_False by done. rewrite Hn.
    rewrite decide_False; [done|].
    intros Hdot. apply Hdot. unfold lacksDot. cbn.
    apply list_elem_of_In. cbn. tauto.
Qed.

(** The three submissions the specification lists: blank code, the name
    ["notes"], and the name ["a.txt"]. *)
Lemma C8_pasted_input_validation_witness :
  let form c n :=
    mkSession initialApp
      (mkEditorView false None false TabPreview c n None None None None) in
  (validationError (view (handleGenerateFromText (form "  " "a.txt"))) =
     Some msgNoCode ∧
   app (handleGenerateFromText (form "  " "a.txt")) = initialApp) ∧
  (validationError (view (handleGenerateFromText (form "x = 1" "notes"))) =
     Some msgBadName ∧
   app (handleGenerateFromText (form "x = 1" "notes")) = initialApp) ∧
  (validationError (view (handleGenerateFromText (form "x = 1" "a.txt"))) =
     None ∧
   processedFiles (app (handleGenerateFromText (form "x = 1" "a.txt"))) =
     <["a.txt" := mkProcessedFile "a.txt" "a.txt"
                    [ProjectFile.mk "a.txt" "x = 1"] ""]> ∅ ∧
   activeFile (app (handleGenerateFromText (form "x = 1" "a.txt"))) =
     Some "a.txt").
Proof.
  intros form.
  assert (Hblank : whitespaceOnly "  ") by (repeat constructor).
  assert (Hcode : ¬ whitespaceOnly "x = 1").
  { intros H. apply whitespaceOnly_cons in H as [H _]. discriminate H. }
  assert (Hnotes : lacksDot "notes").
  { intros H. apply list_elem_of_In in H. cbn in H.
    repeat (destruct H as [H|H]; [discriminate H|]). exact H. }
  split_and!.
  - exact (proj1 (proj1 (C8_pasted_input_validation (form "  " "a.txt")) Hblank)).
  - exact (proj2 (proj1 (C8_pasted_input_validation (form "  " "a.txt")) Hblank)).
  - exact (proj1 (proj1 (proj2
             (C8_pasted_input_validation (form "x = 1" "notes"))) Hcode Hnotes)).
  - exact (proj2 (proj1 (proj2
             (C8_pasted_input_validation (form "x = 1" "notes"))) Hcode Hnotes)).
  - exact (proj1 (proj2 (proj2
             (C8_pasted_input_validation (form "x = 1" "a.txt"))) Hcode eq_refl)).
  - exact (proj1 (proj2 (proj2 (proj2
             (C8_pasted_input_validation (form "x = 1" "a.txt"))) Hcode eq_refl))).
  - exact (proj2 (proj2 (proj2 (proj2
             (C8_pasted_input_validation (form "x = 1" "a.txt"))) Hcode eq_refl))).
Defined.

(** C9.  A submission that fails validation (blank code, a blank file
    name, or a file name without a dot) changes nothing but the validation
    message: registry, active pointer, pasted code, file name, image and
    every other cell are as before. *)
Theorem C9_validation_failure_frame (s : Session) :
  whitespaceOnly (pastedCode (view s)) ∨
  whitespaceOnly (inputFileName (view s)) ∨
  lacksDot (inputFileName (view s)) →
  ∃ msg,
    handleGenerateFromText s =
      mkSession (app s)
        (mkEditorView (isLoading (view s)) (error (view s))
           (isCopied (view s)) (activeTab (view s)) (pastedCode (view s))
           (inputFileName (view s)) (Some msg) (imagePreview (view s))
           (imageBase64 (view s)) (imageMimeType (view s))) ∧
    msg ≠ "".
Proof.
  intros Hfail. rewrite handleGenerateFromText_cases. cbn zeta.
  destruct (decide (trim (pastedCode (view s)) = "")) as [Hc|Hc].
  - exists msgNoCode. by split.
  - assert (lacksDot (inputFileName (view s))) as Hdot.
    { destruct Hfail as [Hws|[Hws|Hdot]]; [|by apply whitespaceOnly_lacksDot|done].
      by apply trim_empty_iff in Hws. }
    rewrite decide_True by done. exists msgBadName. by split.
Qed.

(** A session with one finished entry; submitting code under the name
    ["notes"] leaves everything but the message in place. *)
Lemma C9_validation_failure_frame_witness :
  let e := mkProcessedFile "x.py" "x.py" [ProjectFile.mk "x.py" "print(1)"]
             "<html></html>" in
  let s := mkSession (mkApp {[ "x.py" := e ]} None)
             (mkEditorView false None false TabCode "x = 1" "notes" None
                (Some "data:image/png;base64,AAAA") (Some "AAAA")
                (Some "image/png")) in
  ∃ msg,
    handleGenerateFromText s =
      mkSession (app s)
        (mkEditorView false None false TabCode "x = 1" "notes" (Some msg)
           (Some "data:image/png;base64,AAAA") (Some "AAAA")
           (Some "image/png")) ∧
    msg ≠ "".
Proof.
  intros e s. apply (C9_validation_failure_frame s).
  right. right. intros H. apply list_elem_of_In in H. cbn in H.
  repeat (destruct H as [H|H]; [discriminate H|]). exact H.
Defined.

(** ** The active prop and the effect *)

Lemma activeFileData_activeValue (a : App) (af : ProcessedFile) :
  activeFileData a = Some af ↔ activeValue a = FoundEntry af.
Proof.
  unfold activeFileData, activeValue. destruct (activeFile a) as [p|].
  - destruct (decide (p = "")); [split; discriminate|].
    symmetry. apply jsGet_entry.
  - split; discriminate.
Qed.

Lemma activeIsNoEntry_of_entry (a : App) (af : ProcessedFile) :
  activeFileData a = Some af → activeIsNoEntry a = false.
Proof.
  intros H%activeFileData_activeValue. unfold activeIsNoEntry. by rewrite H.
Qed.

Lemma activeIsNoEntry_no_pointer (a : App) :
  activeFile a = None → activeIsNoEntry a = false.
Proof. intros H. unfold activeIsNoEntry, activeValue. by rewrite H. Qed.

Lemma isThrown_streamUpdater (p chunk : string) (r : Registry) :
  isThrown (streamUpdater p chunk r) = false.
Proof. rewrite streamUpdater_spec. by destruct (jsGet r p). Qed.

Lemma jsGet_handleStreamUpdate (p chunk : string) (a : App) (q : string) :
  jsGet (processedFiles (handleStreamUpdate p chunk a)) q =
    if decide (q = p)
    then match jsGet (processedFiles a) p with
         | FoundEntry e => FoundEntry (withOutput e (generatedHtml e +:+ chunk))
         | FoundStray html => FoundStray (html +:+ chunk)
         | FoundInherited => FoundStray ("undefined" +:+ chunk)
         | NotFound => NotFound
         end
    else jsGet (processedFiles a) q.
Proof.
  unfold handleStreamUpdate. cbn [processedFiles]. rewrite streamUpdater_spec.
  destruct (decide (q = p)) as [->|Hq].
  - destruct (jsGet (processedFiles a) p) as [e|h| |] eqn:Hget; cbn [setState].
    + apply jsGet_entry, reg_lookup_insert_eq.
    + apply jsGet_storeStray.
    + apply jsGet_storeStray.
    + exact Hget.
  - destruct (jsGet (processedFiles a) p) as [e|h| |]; cbn [setState];
      unfold jsGet; rewrite ?stored_insert, ?stored_storeStray;
      by rewrite ?lookup_insert_ne.
Qed.

(** A chunk never turns the active prop into an entry or out of one. *)
Lemma activeIsNoEntry_handleStreamUpdate (p chunk : string) (a : App) :
  activeIsNoEntry (handleStreamUpdate p chunk a) = activeIsNoEntry a.
Proof.
  unfold activeIsNoEntry, activeValue.
  change (activeFile (handleStreamUpdate p chunk a)) with (activeFile a).
  destruct (activeFile a) as [q|]; [|reflexivity].
  destruct (decide (q = "")); [reflexivity|].
  rewrite jsGet_handleStreamUpdate.
  destruct (decide (q = p)) as [->|]; [|reflexivity].
  by destruct (jsGet (processedFiles a) p).
Qed.

Lemma activeFileData_handleStreamUpdate (p chunk : string) (a : App) :
  activeFileData (handleStreamUpdate p chunk a) =
    if decide (activeFile a = Some p)
    then (λ e, withOutput e (generatedHtml e +:+ chunk)) <$> activeFileData a
    else activeFileData a.
Proof.
  unfold activeFileData.
  change (activeFile (handleStreamUpdate p chunk a)) with (activeFile a).
  destruct (activeFile a) as [q|]; [|by destruct (decide _)].
  destruct (decide (q = "")) as [->|Hq]; [by destruct (decide _)|].
  rewrite handleStreamUpdate_lookup.
  destruct (decide (q = p)) as [->|Hne].
  - by rewrite decide_True.
  - rewrite decide_False; [done|]. by intros [= ?].
Qed.

Lemma needsGeneration_withOutput_false (e : ProcessedFile) (chunk : string) :
  needsGeneration e = false →
  needsGeneration (withOutput e (generatedHtml e +:+ chunk)) = false.
Proof.
  unfold needsGeneration. cbn [sourceFiles generatedHtml withOutput].
  rewrite !andb_false_iff. intros [H|H]; [by left|]. right.
  apply bool_decide_eq_false in H. apply bool_decide_eq_false.
  destruct (generatedHtml e); [done | discriminate].
Qed.

Lemma idle_handleStreamUpdate (p chunk : string) (a : App) :
  idle a → idle (handleStreamUpdate p chunk a).
Proof.
  intros [Hact Hidle]. split.
  - by rewrite activeIsNoEntry_handleStreamUpdate.
  - intros af. rewrite activeFileData_handleStreamUpdate.
    destruct (decide (activeFile a = Some p)) as [Hp|Hp]; [|apply Hidle].
    destruct (activeFileData a) as [e|]; [|discriminate].
    cbn. intros [= <-]. by apply needsGeneration_withOutput_false, Hidle.
Qed.

Lemma afterRender_idle (s : Session) :
  idle (app s) → afterRender s = Some (s, []).
Proof.
  intros [Hact Hidle]. unfold afterRender, generationEffect. rewrite Hact.
  destruct (activeFileData (app s)) as [af|]; [|reflexivity].
  by rewrite (Hidle af eq_refl).
Qed.

Lemma dispatch_StreamUpdate (p chunk : string) (s : Session) :
  dispatch (Callback (StreamUpdate p chunk)) s =
    if isReplaced (streamUpdater p chunk (processedFiles (app s)))
    then afterRender (onApp (handleStreamUpdate p chunk) s)
    else Some (onApp (handleStreamUpdate p chunk) s, []).
Proof.
  unfold dispatch. cbn [throws rerenders handle].
  by rewrite isThrown_streamUpdater.
Qed.

Lemma generateStart_idempotent (v : EditorView) :
  generateStart (generateStart v) = generateStart v.
Proof. reflexivity. Qed.

(** ** One call, chunk by chunk *)

Lemma runChunks_idle (p : string) (chunks : list string) (s : Session) :
  idle (app s) →
  runEvents ((λ chunk, Callback (StreamUpdate p chunk)) <$> chunks) s =
    Some (mkSession
            (foldl (λ a chunk, handleStreamUpdate p chunk a) (app s) chunks)
            (view s), []).
Proof.
  revert s. induction chunks as [|c cs IH]; intros s Hidle.
  - by destruct s.
  - cbn [fmap list_fmap runEvents foldl]. rewrite dispatch_StreamUpdate.
    assert (Hidle' : idle (app (onApp (handleStreamUpdate p c) s)))
      by (by apply idle_handleStreamUpdate).
    rewrite (afterRender_idle _ Hidle').
    assert (runEvents ((λ chunk, Callback (StreamUpdate p chunk)) <$> cs)
              (onApp (handleStreamUpdate p c) s) =
            Some (mkSession
                    (foldl (λ a chunk, handleStreamUpdate p chunk a)
                       (handleStreamUpdate p c (app s)) cs) (view s), []))
      as Hrest by (by rewrite (IH _ Hidle')).
    destruct (isReplaced _); by rewrite Hrest.
Qed.

Lemma runChunks_session (p : string) (chunks : list string) (s : Session) :
  activeIsNoEntry (app s) = false →
  generateStart (view s) = view s →
  ∃ calls,
    runEvents ((λ chunk, Callback (StreamUpdate p chunk)) <$> chunks) s =
      Some (mkSession
              (foldl (λ a chunk, handleStreamUpdate p chunk a) (app s) chunks)
              (view s), calls).
Proof.
  revert s. induction chunks as [|c cs IH]; intros s Hact Hview.
  - exists []. by destruct s.
  - cbn [fmap list_fmap runEvents foldl]. rewrite dispatch_StreamUpdate.
    set (s1 := onApp (handleStreamUpdate p c) s).
    assert (Hact1 : activeIsNoEntry (app s1) = false)
      by (unfold s1; cbn; by rewrite activeIsNoEntry_handleStreamUpdate).
    destruct (IH s1 Hact1 Hview) as [more Hmore].
    assert (Hstart : onView generateStart s1 = s1).
    { unfold s1, onView, onApp. cbn [app view]. by rewrite Hview. }
    destruct (isReplaced _).
    + unfold afterRender. rewrite Hact1.
      destruct (generationEffect s1) as [inv|].
      * rewrite Hstart, Hmore. by eexists.
      * rewrite Hmore. by eexists.
    + rewrite Hmore. by eexists.
Qed.

(** The session [generate] ends in, whatever calls the effect issues on the
    way: the chunks have reached the registry, in arrival order, and the
    outcome only decides the error cell. *)
Lemma generateRun_session (af : ProcessedFile) (run : StreamRun)
    (s : Session) :
  activeIsNoEntry (app s) = false →
  ∃ calls,
    generateRun af run s =
      Some (mkSession
              (foldl (λ a chunk, handleStreamUpdate (path af) chunk a)
                 (app s) (delivered run))
              (generateSettle (outcome run) (generateStart (view s))),
            calls).
Proof.
  intros Hact. unfold generateRun.
  destruct (runChunks_session (path af) (delivered run)
              (onView generateStart s) Hact eq_refl) as [calls ->].
  by exists calls.
Qed.

Lemma generate_session (af : ProcessedFile) (run : StreamRun) (s : Session) :
  activeIsNoEntry (app s) = false →
  generate af run s =
    mkSession
      (foldl (λ a chunk, handleStreamUpdate (path af) chunk a)
         (app s) (delivered run))
      (generateSettle (outcome run) (generateStart (view s))).
Proof.
  intros Hact. unfold generate.
  by destruct (generateRun_session af run s Hact) as [calls ->].
Qed.

(** ** A generation that fails *)

(** The state [generate] ends in: the chunks are in the registry, in arrival
    order, whatever the outcome; the outcome only decides the error cell. *)
Lemma generate_result (af e : ProcessedFile) (run : StreamRun) (s : Session) :
  activeIsNoEntry (app s) = false →
  processedFiles (app s) !! path af = Some e →
  generate af run s =
    mkSession
      (mkApp (<[path af :=
                  withOutput e (generatedHtml e +:+ joined (delivered run))]>
                (processedFiles (app s)))
             (activeFile (app s)))
      (generateSettle (outcome run) (generateStart (view s))).
Proof.
  intros Hact He. rewrite (generate_session _ _ _ Hact).
  by rewrite (handleStreamUpdate_chunks _ _ _ e He).
Qed.

(** The registry after a run that fails is the registry after the same
    chunks followed by a normal return: the [catch] clause leaves it alone. *)
Lemma generate_failure_keeps_registry (af : ProcessedFile)
    (chunks : list string) (err : Thrown) (s : Session) :
  app (generate af (mkStreamRun chunks (Some err)) s) =
  app (generate af (mkStreamRun chunks None) s).
Proof.
  unfold generate, generateRun. cbn [delivered outcome].
  by destruct (runEvents _ _) as [[s2 calls]|].
Qed.

(** A failure whose message is not empty: the page shows the message, and
    the entry keeps every chunk that arrived. *)
Lemma generate_failure_surfaced (af : ProcessedFile) (chunks : list string)
    (err : Thrown) (s : Session) :
  activeFileData (app s) = Some af →
  processedFiles (app s) !! path af = Some af →
  needsGeneration af = true →
  errorMessage err ≠ "" →
  let s' := useEffectGenerate (mkStreamRun chunks (Some err)) s in
  error (view s') = Some (errorMessage err) ∧
  isLoading (view s') = false ∧
  renderContent s' = ErrorPanel (errorMessage err) ∧
  processedFiles (app s') !! path af = Some (withOutput af (joined chunks)) ∧
  (∀ q, q ≠ path af → processedFiles (app s') !! q = processedFiles (app s) !! q) ∧
  activeFile (app s') = activeFile (app s).
Proof.
  intros Hact He Hneeds Hmsg. cbn zeta. unfold useEffectGenerate.
  rewrite Hact, Hneeds.
  rewrite (generate_result af af _ s (activeIsNoEntry_of_entry _ _ Hact) He).
  apply andb_true_iff in Hneeds as [_ Hout%bool_decide_eq_true].
  rewrite Hout. cbn [app view processedFiles activeFile delivered outcome].
  split_and!; try reflexivity.
  - unfold renderContent. cbn.
    by rewrite bool_decide_eq_false_2.
  - apply reg_lookup_insert_eq.
  - intros q Hq. by apply reg_lookup_insert_ne.
Qed.

(** In a reachable state every entry is stored under its own [path], so
    the chunks of a run, forwarded to [activeFile.path], reach the active
    entry. *)
Lemma reachable_paths_are_keys (a : App) :
  reachable a → ∀ p e, processedFiles a !! p = Some e → path e = p.
Proof.
  induction 1 as [|ev a Hreach IH]; intros q e'.
  - cbn. by rewrite reg_lookup_empty.
  - destruct ev as [fd | p fs | p chunk | ]; cbn [handle].
    + cbn. destruct (decide (q = fd_path fd)) as [->|Hq].
      * rewrite reg_lookup_insert_eq. by intros [= <-].
      * rewrite reg_lookup_insert_ne by done. apply IH.
    + rewrite handleAddFilesToProject_lookup.
      destruct (decide (q = p)) as [->|Hq]; [|apply IH].
      destruct (processedFiles a !! p) as [e|] eqn:He; [|discriminate].
      cbn. intros [= <-]. unfold afterAppend.
      destruct (freshFiles e fs); exact (IH _ _ He).
    + rewrite handleStreamUpdate_lookup.
      destruct (decide (q = p)) as [->|Hq]; [|apply IH].
      destruct (processedFiles a !! p) as [e|] eqn:He; [|discriminate].
      cbn. intros [= <-]. exact (IH _ _ He).
    + cbn. by rewrite reg_lookup_empty.
Qed.

(** The entry ["x.py"] is active and empty; the service delivers ["<p>"]
    and ["hi"] and then throws an error with a message: the page shows the
    message and the registry keeps ["<p>hi"]. *)
Lemma generate_failure_surfaced_example :
  let af := mkProcessedFile "x.py" "x.py" [ProjectFile.mk "x.py" "print(1)"] "" in
  let s := mkSession (mkApp {[ "x.py" := af ]} (Some "x.py")) initialView in
  let s' := useEffectGenerate
              (mkStreamRun ["<p>"; "hi"] (Some (ThrownError "quota"))) s in
  renderContent s' = ErrorPanel "quota" ∧
  processedFiles (app s') !! "x.py" = Some (withOutput af "<p>hi").
Proof.
  intros af s s'.
  destruct (generate_failure_surfaced af ["<p>"; "hi"] (ThrownError "quota") s)
    as (_ & _ & Hrender & Hreg & _); try reflexivity; [discriminate|].
  split; [exact Hrender | exact Hreg].
Defined.

(** C6 at a failure with an empty message.  The entry ["x.py"] is active and
    empty; the service delivers ["<p>"] and ["hi"] and then throws
    [new Error("")].  The chunks stay in the registry and the error cell
    holds the (empty) message, but the page tests the cell for truthiness:
    it shows the project panel with the partial output, not an error. *)
Theorem C6_empty_error_message_not_surfaced :
  let af := mkProcessedFile "x.py" "x.py" [ProjectFile.mk "x.py" "print(1)"] "" in
  let s := mkSession (mkApp {[ "x.py" := af ]} (Some "x.py")) initialView in
  let s' := useEffectGenerate
              (mkStreamRun ["<p>"; "hi"] (Some (ThrownError ""))) s in
  error (view s') = Some "" ∧
  isLoading (view s') = false ∧
  processedFiles (app s') !! "x.py" = Some (withOutput af "<p>hi") ∧
  renderContent s' = ProjectPanel TabPreview "x.py" "<p>hi" ∧
  renderContent s' ≠ ErrorPanel "".
Proof.
  cbn zeta. split_and!; try reflexivity. by vm_compute.
Qed.

(** ** When the service is called *)

Lemma append_empty_iff (s1 s2 : string) :
  s1 +:+ s2 = "" ↔ s1 = "" ∧ s2 = "".
Proof.
  destruct s1 as [|c s1].
  - change ("" +:+ s2) with s2. tauto.
  - change (String c s1 +:+ s2) with (String c (s1 +:+ s2)).
    split; [discriminate | by intros [? _]].
Qed.

Lemma needsGeneration_true_iff (af : ProcessedFile) :
  needsGeneration af = true ↔ sourceFiles af ≠ [] ∧ generatedHtml af = "".
Proof.
  unfold needsGeneration.
  rewrite andb_true_iff, bool_decide_eq_true, Nat.ltb_lt.
  destruct (sourceFiles af); cbn; split; intros [H1 H2]; split;
    try done; lia.
Qed.

Lemma generationEffect_active (s : Session) (a : App) (p : string)
    (af : ProcessedFile) :
  activeFile a = Some p → p ≠ "" → processedFiles a !! p = Some af →
  generationEffect (mkSession a (view s)) =
    if needsGeneration af then Some (callFor s af) else None.
Proof.
  intros Hact Hp Haf. unfold generationEffect, activeFileData. cbn.
  by rewrite Hact, decide_False, Haf.
Qed.

Lemma activeFileData_active (a : App) (p : string) (af : ProcessedFile) :
  activeFile a = Some p → p ≠ "" → processedFiles a !! p = Some af →
  activeFileData a = Some af.
Proof.
  intros Hact Hp Haf. unfold activeFileData. by rewrite Hact, decide_False.
Qed.

(** The events in one form: the session is updated, and the effect runs
    when one of its dependencies changed. *)
Lemma dispatch_eq (pev : PageEvent) (s : Session) :
  dispatch pev s =
    if match pev with Callback ev => throws ev (app s) | _ => false end
    then None
    else if depsChanged pev s then afterRender (applyEvent pev s)
         else Some (applyEvent pev s, []).
Proof. by destruct pev. Qed.

Lemma afterRender_calls (s s' : Session) (calls : list Invocation) :
  afterRender s = Some (s', calls) →
  calls = option_list (generationEffect s) ∧
  app s' = app s ∧
  activeIsNoEntry (app s) = false.
Proof.
  unfold afterRender. destruct (activeIsNoEntry (app s)); [discriminate|].
  destruct (generationEffect s) as [inv|]; intros [= <- <-]; by split_and!.
Qed.

Lemma afterRender_active (s : Session) (af : ProcessedFile) :
  activeFileData (app s) = Some af →
  afterRender s =
    if needsGeneration af
    then Some (onView generateStart s, [callFor s af])
    else Some (s, []).
Proof.
  intros Hact. unfold afterRender, generationEffect.
  rewrite (activeIsNoEntry_of_entry _ _ Hact), Hact.
  by destruct (needsGeneration af).
Qed.

(** C7, as stated, fails.  The entry ["x.py"] is created and becomes
    active: one call.  The service then delivers an empty chunk: the
    registry entry is rebuilt with an output that is still empty, [App]
    renders, the effect runs again and issues a second call, although the
    entry did not become active again and no source file was appended. *)
Lemma C7_counterexample :
  let fd := mkFileData "x.py" "x.py" [ProjectFile.mk "x.py" "print(1)"] in
  let call := mkInvocation [ProjectFile.mk "x.py" "print(1)"] None None "x.py" in
  let s1 := onView generateStart (onApp (handleGenerationStart fd)
                                    initialSession) in
  dispatch (Callback (GenerationStart fd)) initialSession = Some (s1, [call]) ∧
  isTrigger (Callback (StreamUpdate "x.py" "")) (app s1) = false ∧
  dispatch (Callback (StreamUpdate "x.py" "")) s1 = Some (s1, [call]) ∧
  runEvents [Callback (GenerationStart fd); Callback (StreamUpdate "x.py" "")]
            initialSession = Some (s1, [call; call]) ∧
  ¬ (∀ pev s, issued pev s ≠ [] → isTrigger pev (app s) = true).
Proof.
  cbn zeta. split_and!; try reflexivity.
  intros H.
  specialize (H (Callback (StreamUpdate "x.py" ""))
                (onView generateStart
                   (onApp (handleGenerationStart
                             (mkFileData "x.py" "x.py"
                                [ProjectFile.mk "x.py" "print(1)"]))
                      initialSession))).
  discriminate H. by vm_compute.
Qed.

(** C7, amended.  An event issues at most one call of the service, and it
    issues one exactly when it changes a dependency of the effect (the
    state of [App] is replaced, or the image data or type changes) and the
    active entry then has source files and an empty output.  So one call
    follows the creation of an entry with source files, one call follows a
    source-file append that adds a file to the active entry, none follows
    a reset or a callback that leaves the state as it is; a chunk for the
    active entry is followed by no call as soon as the output is not
    empty, but by one more call while the output is still empty (an empty
    chunk before any text); and a change of the reference image while the
    active entry waits with an empty output is followed by one more call,
    with the new image. *)
Theorem C7_calls_of_the_generation_effect (s : Session) :
  (∀ pev, length (issued pev s) ≤ 1) ∧
  (∀ pev s' calls call,
     dispatch pev s = Some (s', calls) →
     (call ∈ calls ↔
      depsChanged pev s = true ∧
      ∃ af, activeFileData (app (applyEvent pev s)) = Some af ∧
            sourceFiles af ≠ [] ∧ generatedHtml af = "" ∧
            call = callFor (applyEvent pev s) af)) ∧
  (∀ fd, fd_path fd ≠ "" → fd_sourceFiles fd ≠ [] →
     dispatch (Callback (GenerationStart fd)) s =
       Some (onView generateStart (onApp (handleGenerationStart fd) s),
             [callFor s (newFile fd)])) ∧
  (∀ p newFiles e,
     activeFile (app s) = Some p → p ≠ "" →
     processedFiles (app s) !! p = Some e →
     Exists (λ f, ProjectFile.name f ∉ sourceNames e) newFiles →
     issued (Callback (AddFilesToProject p newFiles)) s =
       [callFor s {| name := name e; path := path e;
                     sourceFiles := sourceFiles e ++ freshFiles e newFiles;
                     generatedHtml := "" |}]) ∧
  (∀ ev, rerenders ev (app s) = false → throws ev (app s) = false →
     dispatch (Callback ev) s = Some (s, [])) ∧
  dispatch (Callback Reset) s = Some (onApp handleReset s, []) ∧
  (∀ p chunk e,
     activeFile (app s) = Some p → p ≠ "" →
     processedFiles (app s) !! p = Some e → sourceFiles e ≠ [] →
     (generatedHtml e ≠ "" ∨ chunk ≠ "" →
        issued (Callback (StreamUpdate p chunk)) s = []) ∧
     (generatedHtml e = "" → chunk = "" →
        issued (Callback (StreamUpdate p chunk)) s = [callFor s e])) ∧
  (∀ pev af,
     (pev = RemoveImage ∨ ∃ file, pev = ImageChange file) →
     activeFileData (app s) = Some af → needsGeneration af = true →
     depsChanged pev s = true →
     issued pev s = [callFor (applyEvent pev s) af]).
Proof.
  split_and!.
  - intros pev. unfold issued.
    destruct (dispatch pev s) as [[s' calls]|] eqn:Hd; [|cbn; lia].
    rewrite dispatch_eq in Hd.
    destruct (match pev with Callback ev => throws ev (app s) | _ => false end);
      [discriminate|].
    destruct (depsChanged pev s).
    + apply afterRender_calls in Hd as (-> & _ & _).
      destruct (generationEffect _); cbn; lia.
    + injection Hd as <- <-. cbn. lia.
  - intros pev s' calls call Hd. rewrite dispatch_eq in Hd.
    destruct (match pev with Callback ev => throws ev (app s) | _ => false end);
      [discriminate|].
    destruct (depsChanged pev s).
    + apply afterRender_calls in Hd as (-> & _ & _).
      unfold generationEffect.
      destruct (activeFileData (app (applyEvent pev s))) as [af|].
      * destruct (needsGeneration af) eqn:Hneeds.
        -- apply needsGeneration_true_iff in Hneeds as [Hsrc Hout].
           cbn. rewrite list_elem_of_singleton. split.
           ++ intros ->. split; [done|]. by exists af.
           ++ by intros [_ (af' & [= <-] & _ & _ & ->)].
        -- cbn. split; [by intros ?%elem_of_nil|].
           intros [_ (af' & [= <-] & Hsrc & Hout & _)].
           assert (needsGeneration af = true) as Hn
             by by apply needsGeneration_true_iff.
           congruence.
      * cbn. split; [by intros ?%elem_of_nil|].
        by intros [_ (af' & [=] & _)].
    + injection Hd as <- <-.
      split; [by intros ?%elem_of_nil | by intros [? _]].
  - intros fd Hp Hsrc. unfold dispatch. cbn [throws rerenders handle].
    rewrite (afterRender_active _ (newFile fd)).
    + rewrite (proj2 (needsGeneration_true_iff (newFile fd)));
        [reflexivity | by split].
    + apply (activeFileData_active _ (fd_path fd));
        [reflexivity | exact Hp | apply reg_lookup_insert_eq].
  - intros p newFiles e Hact Hp He Hex. unfold issued.
    rewrite dispatch_eq. cbn [throws depsChanged rerenders applyEvent handle].
    assert (Hs1 : onApp (handle (AddFilesToProject p newFiles)) s =
              mkSession
                (mkApp (<[p := {| name := name e; path := path e;
                                  sourceFiles :=
                                    sourceFiles e ++ freshFiles e newFiles;
                                  generatedHtml := "" |}]>
                          (processedFiles (app s))) (Some p)) (view s)).
    { unfold onApp. cbn [handle]. unfold handleAddFilesToProject.
      rewrite (addFilesUpdater_entry _ _ _ _ He), Hact.
      apply freshFiles_cons_iff in Hex.
      by destruct (freshFiles e newFiles). }
    rewrite Hs1, (addFilesUpdater_entry _ _ _ _ He).
    apply freshFiles_cons_iff in Hex.
    destruct (freshFiles e newFiles) as [|f added] eqn:Hfresh; [done|].
    cbn [isThrown isReplaced].
    erewrite afterRender_active;
      [ | apply (activeFileData_active _ p);
          [reflexivity | exact Hp | apply reg_lookup_insert_eq] ].
    rewrite (proj2 (needsGeneration_true_iff _)); [reflexivity|].
    cbn. split; [|reflexivity]. by destruct (sourceFiles e).
  - intros ev Hno Hthrow. unfold dispatch. rewrite Hthrow, Hno.
    destruct s as [a v]. unfold onApp. cbn [app view] in *. do 2 f_equal.
    destruct ev as [fd | p fs | p chunk | ]; cbn in *; try discriminate.
    + unfold handleAddFilesToProject.
      destruct (addFilesUpdater p fs (processedFiles a));
        try discriminate; by destruct a.
    + unfold handleStreamUpdate.
      destruct (streamUpdater p chunk (processedFiles a));
        try discriminate; by destruct a.
  - reflexivity.
  - intros p chunk e Hact Hp He Hsrc.
    assert (issued (Callback (StreamUpdate p chunk)) s =
              if needsGeneration (withOutput e (generatedHtml e +:+ chunk))
              then [callFor s (withOutput e (generatedHtml e +:+ chunk))]
              else []) as Heq.
    { unfold issued. rewrite dispatch_StreamUpdate.
      rewrite streamUpdater_spec, (jsGet_of_lookup _ _ _ He).
      cbn [isReplaced]. unfold onApp.
      rewrite (handleStreamUpdate_Some _ _ _ _ He).
      erewrite afterRender_active;
        [ | apply (activeFileData_active _ p);
            [exact Hact | exact Hp | apply reg_lookup_insert_eq] ].
      by destruct (needsGeneration _). }
    rewrite Heq. split.
    + intros Hne.
      destruct (needsGeneration _) eqn:Hneeds; [|reflexivity].
      apply needsGeneration_true_iff in Hneeds as [_ Hout].
      cbn in Hout. apply append_empty_iff in Hout. tauto.
    + intros Hout ->.
      rewrite (proj2 (needsGeneration_true_iff _)).
      * rewrite append_nil_r, withOutput_same. reflexivity.
      * cbn. split; [done|]. by rewrite Hout.
  - intros pev af Hpev Hact Hneeds Hdeps. unfold issued.
    rewrite dispatch_eq, Hdeps.
    assert (Happ : app (applyEvent pev s) = app s).
    { destruct Hpev as [->|[file ->]]; [reflexivity|].
      cbn. unfold handleImageChange.
      destruct file as [f|]; [|reflexivity].
      by destruct (String.prefix _ _). }
    assert (match pev with Callback ev => throws ev (app s) | _ => false end
            = false) as -> by (by destruct Hpev as [->|[file ->]]).
    rewrite (afterRender_active _ af) by (by rewrite Happ).
    by rewrite Hneeds.
Qed.

(** The first end-to-end scenario: submitting ["x.py"] from the initial
    page issues one call with its single source file. *)
Lemma C7_calls_of_the_generation_effect_witness :
  let fd := mkFileData "x.py" "x.py" [ProjectFile.mk "x.py" "print(1)"] in
  dispatch (Callback (GenerationStart fd)) initialSession =
    Some (onView generateStart (onApp (handleGenerationStart fd) initialSession),
          [mkInvocation [ProjectFile.mk "x.py" "print(1)"] None None "x.py"]).
Proof.
  intros fd.
  refine (proj1 (proj2 (proj2
            (C7_calls_of_the_generation_effect initialSession))) fd _ _);
    discriminate.
Defined.

(** An image that finishes loading while ["x.py"] waits for its first
    chunk: the call is issued again, with the image. *)
Lemma image_change_reissues_the_call :
  let fd := mkFileData "x.py" "x.py" [ProjectFile.mk "x.py" "print(1)"] in
  let s1 := onView generateStart (onApp (handleGenerationStart fd)
                                    initialSession) in
  issued (ImageChange
            (Some (mkImageFile "image/png" "data:image/png;base64,AAAA"))) s1 =
    [mkInvocation [ProjectFile.mk "x.py" "print(1)"] (Some "AAAA")
       (Some "image/png") "x.py"].
Proof. reflexivity. Qed.

(** * Further properties of the handlers *)

(** ** Source-file appends *)

Lemma freshFiles_after_append (e : ProcessedFile)
    (newFiles : list ProjectFile.t) :
  freshFiles
    {| name := name e; path := path e;
       sourceFiles := sourceFiles e ++ freshFiles e newFiles;
       generatedHtml := "" |} newFiles = [].
Proof.
  apply freshFiles_nil_iff, Forall_forall. intros f Hf.
  unfold sourceNames. cbn [sourceFiles]. rewrite fmap_app, elem_of_app.
  destruct (decide (ProjectFile.name f ∈ sourceNames e)) as [Hin|Hout].
  - by left.
  - right. apply list_elem_of_fmap_2. by apply list_elem_of_filter.
Qed.

Lemma addFilesUpdater_after_append
    (a : App) (p : string) (newFiles : list ProjectFile.t) :
  isReplaced
    (addFilesUpdater p newFiles
       (processedFiles (handleAddFilesToProject p newFiles a))) = false.
Proof.
  unfold handleAddFilesToProject. cbn [processedFiles].
  rewrite (addFilesUpdater_spec p newFiles (processedFiles a)).
  destruct (jsGet (processedFiles a) p) as [e|h| |] eqn:Hget.
  - apply jsGet_entry in Hget.
    destruct (freshFiles e newFiles) as [|f added] eqn:Hfresh.
    + cbn [setState]. by rewrite (addFilesUpdater_entry _ _ _ _ Hget), Hfresh.
    + cbn [setState].
      erewrite addFilesUpdater_entry; [|apply reg_lookup_insert_eq].
      rewrite <- Hfresh. by rewrite freshFiles_after_append.
  - cbn [setState]. by rewrite addFilesUpdater_spec, Hget.
  - cbn [setState]. by rewrite addFilesUpdater_spec, Hget.
  - cbn [setState]. by rewrite addFilesUpdater_spec, Hget.
Qed.

Lemma setState_not_replaced {A : Type} (prev : A) (u : Updated A) :
  isReplaced u = false → setState prev u = prev.
Proof. by destruct u. Qed.


(** X2.  An append never drops, reorders or overwrites what an entry holds:
    the old source files are a beginning of the new ones, name and path
    stay, the stored names become the old names together with the new
    files' names, and every file of the result is an old file or a new file
    with a name that was not stored (so a new file under a stored name is
    dropped, whatever its content). *)
Theorem X2_appendSourceFiles_keeps_existing
    (a : App) (p : string) (newFiles : list ProjectFile.t)
    (e : ProcessedFile) :
  processedFiles a !! p = Some e →
  ∃ e', processedFiles (handleAddFilesToProject p newFiles a) !! p = Some e' ∧
        sourceFiles e `prefix_of` sourceFiles e' ∧
        name e' = name e ∧ path e' = path e ∧
        (∀ n, n ∈ sourceNames e' ↔
              n ∈ sourceNames e ∨ n ∈ ProjectFile.name <$> newFiles) ∧
        (∀ f, f ∈ sourceFiles e' →
              f ∈ sourceFiles e ∨
              (f ∈ newFiles ∧ ProjectFile.name f ∉ sourceNames e)).
Proof.
  intros He. unfold handleAddFilesToProject. cbn [processedFiles].
  rewrite (addFilesUpdater_entry _ _ _ _ He).
  assert (Hnames : ∀ n, n ∈ ProjectFile.name <$> newFiles →
            n ∈ sourceNames e ∨
            n ∈ ProjectFile.name <$> freshFiles e newFiles).
  { intros n (f & -> & Hf)%list_elem_of_fmap.
    destruct (decide (ProjectFile.name f ∈ sourceNames e)); [by left|].
    right. apply list_elem_of_fmap_2. by apply list_elem_of_filter. }
  destruct (freshFiles e newFiles) as [|f added] eqn:Hfresh.
  - cbn [setState]. exists e. split_and!; try done.
    + intros n. split; [by left|]. intros [?|Hn]; [done|].
      destruct (Hnames n Hn) as [?|Hnil]; [done|]. by apply elem_of_nil in Hnil.
    + intros f Hf. by left.
  - cbn [setState]. rewrite reg_lookup_insert_eq. eexists. split; [reflexivity|].
    cbn [sourceFiles name path]. split_and!; try done.
    + by apply prefix_app_r.
    + intros n. unfold sourceNames at 1. cbn [sourceFiles].
      rewrite fmap_app, elem_of_app. split.
      * intros [?|Hn]; [by left|]. right.
        apply list_elem_of_fmap in Hn as (g & -> & Hg).
        rewrite <- Hfresh in Hg. apply list_elem_of_filter in Hg as [_ Hg].
        by apply list_elem_of_fmap_2.
      * intros [?|Hn]; [by left|]. by apply Hnames.
    + intros g [Hg|Hg]%elem_of_app; [by left|]. right.
      rewrite <- Hfresh in Hg. by apply list_elem_of_filter in Hg as [? ?].
Qed.

(** The project ["proj"] holds ["a.js"] with the text ["old"]; adding a new
    version of ["a.js"] and a new ["b.js"] keeps the old ["a.js"]. *)
Lemma X2_appendSourceFiles_keeps_existing_witness :
  let fa := ProjectFile.mk "a.js" "old" in
  let fa' := ProjectFile.mk "a.js" "new" in
  let fb := ProjectFile.mk "b.js" "b" in
  let e := mkProcessedFile "proj" "proj" [fa] "<html>" in
  let a := mkApp {[ "proj" := e ]} (Some "proj") in
  ∃ e', processedFiles (handleAddFilesToProject "proj" [fa'; fb] a) !! "proj"
          = Some e' ∧
        [fa] `prefix_of` sourceFiles e' ∧
        name e' = "proj" ∧ path e' = "proj" ∧
        (∀ n, n ∈ sourceNames e' ↔
              n ∈ ["a.js"] ∨ n ∈ ["a.js"; "b.js"]) ∧
        (∀ f, f ∈ sourceFiles e' →
              f ∈ [fa] ∨ (f ∈ [fa'; fb] ∧ ProjectFile.name f ∉ ["a.js"])).
Proof.
  intros fa fa' fb e a.
  exact (X2_appendSourceFiles_keeps_existing a "proj" [fa'; fb] e eq_refl).
Defined.

(** ** Keys, paths and the active pointer *)

Lemma stored_handleStreamUpdate (p chunk : string) (a : App) (q : string) :
  stored (processedFiles (handleStreamUpdate p chunk a)) !! q =
    if decide (q = p)
    then match stored (processedFiles a) !! p with
         | Some (Entry e) =>
             Some (Entry (withOutput e (generatedHtml e +:+ chunk)))
         | Some (Stray html) => Some (Stray (html +:+ chunk))
         | None =>
             if inherited p then Some (Stray ("undefined" +:+ chunk)) else None
         end
    else stored (processedFiles a) !! q.
Proof.
  unfold handleStreamUpdate. cbn [processedFiles]. rewrite streamUpdater_spec.
  unfold jsGet.
  destruct (stored (processedFiles a) !! p) as [[e|h]|] eqn:Hp;
    [ | | destruct (inherited p)]; cbn [setState];
    rewrite ?stored_insert, ?stored_storeStray;
    destruct (decide (q = p)) as [->|Hq];
    by rewrite ?lookup_insert_eq, ?lookup_insert_ne, ?Hp.
Qed.

Lemma stored_handleAddFilesToProject (p : string)
    (newFiles : list ProjectFile.t) (a : App) (q : string) :
  stored (processedFiles (handleAddFilesToProject p newFiles a)) !! q =
    if decide (q = p)
    then match stored (processedFiles a) !! p with
         | Some (Entry e) => Some (Entry (afterAppend e newFiles))
         | other => other
         end
    else stored (processedFiles a) !! q.
Proof.
  unfold handleAddFilesToProject. cbn [processedFiles].
  rewrite addFilesUpdater_spec. unfold jsGet, afterAppend.
  destruct (stored (processedFiles a) !! p) as [[e|h]|] eqn:Hp;
    [destruct (freshFiles e newFiles) | | destruct (inherited p)];
    cbn [setState]; rewrite ?stored_insert;
    destruct (decide (q = p)) as [->|Hq];
    by rewrite ?lookup_insert_eq, ?lookup_insert_ne, ?Hp.
Qed.

Lemma gmap_dom_eq_lookup (m1 m2 : gmap string Stored) :
  (∀ q, is_Some (m1 !! q) ↔ is_Some (m2 !! q)) → dom m1 = dom m2.
Proof.
  intros H. apply set_eq. intros q. by rewrite !elem_of_dom.
Qed.

(** X4.  Which own keys the registry object has after a callback: creating
    an entry adds its path; a reset removes every key; a source-file
    append leaves the keys as they are; a chunk leaves them as they are,
    except that a chunk for a path that names a member of
    [Object.prototype] makes that path an own key. *)
Theorem X4_keys_after_callback (ev : Event) (a : App) :
  dom (processedFiles (handle ev a)) =
    match ev with
    | GenerationStart fileData => {[fd_path fileData]} ∪ dom (processedFiles a)
    | AddFilesToProject _ _ => dom (processedFiles a)
    | StreamUpdate p _ =>
        if inherited p then {[p]} ∪ dom (processedFiles a)
        else dom (processedFiles a)
    | Reset => ∅
    end.
Proof.
  destruct ev as [fd | p fs | p chunk | ]; cbn [handle].
  - apply reg_dom_insert.
  - rewrite !reg_dom_unfold. apply gmap_dom_eq_lookup. intros q.
    rewrite stored_handleAddFilesToProject.
    destruct (decide (q = p)) as [->|]; [|done].
    by destruct (stored (processedFiles a) !! p) as [[e|h]|].
  - rewrite !reg_dom_unfold. apply set_eq. intros q.
    assert (q ∈ dom (stored (processedFiles (handleStreamUpdate p chunk a))) ↔
            q ∈ dom (stored (processedFiles a)) ∨ (q = p ∧ inherited p = true))
      as ->.
    { rewrite !elem_of_dom, stored_handleStreamUpdate.
      destruct (decide (q = p)) as [->|Hq].
      - destruct (stored (processedFiles a) !! p) as [[e|h]|];
          [split; eauto | split; eauto |].
        destruct (inherited p).
        + split; [by right | by eexists].
        + split; [by intros [? ?] | intros [[? ?]|[_ ?]]; done].
      - split; [by left | intros [?|[? _]]; done]. }
    destruct (inherited p).
    + rewrite elem_of_union, elem_of_singleton. split.
      * intros [?|[-> _]]; [by right | by left].
      * intros [->|?]; [by right | by left].
    + split; [intros [?|[_ ?]]; done | by left].
  - apply dom_empty_L.
Qed.

Lemma wellFormed_handle (ev : Event) (a : App) :
  wellFormed a → wellFormed (handle ev a).
Proof.
  intros (Hkeys & Hact & Hstray). split_and!.
  - intros q e'. destruct ev as [fd | p fs | p chunk | ]; cbn [handle].
    + cbn. destruct (decide (q = fd_path fd)) as [->|Hq].
      * rewrite reg_lookup_insert_eq. by intros [= <-].
      * rewrite reg_lookup_insert_ne by done. apply Hkeys.
    + rewrite handleAddFilesToProject_lookup.
      destruct (decide (q = p)) as [->|Hq]; [|apply Hkeys].
      destruct (processedFiles a !! p) as [e|] eqn:He; [|discriminate].
      cbn. intros [= <-]. unfold afterAppend.
      destruct (freshFiles e fs); exact (Hkeys _ _ He).
    + rewrite handleStreamUpdate_lookup.
      destruct (decide (q = p)) as [->|Hq]; [|apply Hkeys].
      destruct (processedFiles a !! p) as [e|] eqn:He; [|discriminate].
      cbn. intros [= <-]. exact (Hkeys _ _ He).
    + cbn. by rewrite reg_lookup_empty.
  - intros q Hq. destruct ev as [fd | p fs | p chunk | ]; cbn in Hq.
    + injection Hq as <-. cbn. rewrite reg_lookup_insert_eq. by eexists.
    + cbn [handle]. rewrite handleAddFilesToProject_lookup.
      destruct (Hact q Hq) as [e He].
      destruct (decide (q = p)) as [->|]; [|by eexists].
      rewrite He. by eexists.
    + cbn [handle]. rewrite handleStreamUpdate_lookup.
      destruct (Hact q Hq) as [e He].
      destruct (decide (q = p)) as [->|]; [|by eexists].
      rewrite He. by eexists.
    + discriminate Hq.
  - intros q h. destruct ev as [fd | p fs | p chunk | ]; cbn [handle].
    + cbn. rewrite stored_insert.
      destruct (decide (q = fd_path fd)) as [->|Hq].
      * rewrite lookup_insert_eq. discriminate.
      * rewrite lookup_insert_ne by done. apply Hstray.
    + rewrite stored_handleAddFilesToProject.
      destruct (decide (q = p)) as [->|]; [|apply Hstray].
      destruct (stored (processedFiles a) !! p) as [[e|h']|] eqn:Hp;
        [discriminate | | discriminate].
      intros _. by apply (Hstray p h').
    + rewrite stored_handleStreamUpdate.
      destruct (decide (q = p)) as [->|]; [|apply Hstray].
      destruct (stored (processedFiles a) !! p) as [[e|h']|] eqn:Hp.
      * discriminate.
      * intros _. by apply (Hstray p h').
      * by destruct (inherited p).
    + cbn. change (stored ∅) with (∅ : gmap string Stored).
      by rewrite lookup_empty.
Qed.

(** X3.  In every state reached from the initial one by the four
    callbacks, each entry is stored under the key equal to its own [path]
    field; the active pointer, when it is set, is the key of an entry; and
    the objects that are no entries sit under member names of
    [Object.prototype] only. *)
Theorem X3_reachable_states_are_well_formed (a : App) :
  reachable a →
  (∀ p e, processedFiles a !! p = Some e → path e = p) ∧
  (∀ p, activeFile a = Some p → is_Some (processedFiles a !! p)) ∧
  (∀ p html, stored (processedFiles a) !! p = Some (Stray html) →
             inherited p = true).
Proof.
  induction 1 as [|ev a Hreach IH].
  - split_and!.
    + intros p e. cbn. by rewrite reg_lookup_empty.
    + intros p. cbn. discriminate.
    + intros p h. cbn. change (stored ∅) with (∅ : gmap string Stored).
      by rewrite lookup_empty.
  - by apply wellFormed_handle.
Qed.

(** A file named ["toString"] is uploaded, the registry is reset, and a
    late chunk arrives for it. *)
Lemma X3_reachable_states_are_well_formed_witness :
  let ft := ProjectFile.mk "toString" "1" in
  let a := handle (StreamUpdate "toString" "<p>")
             (handle Reset
                (handle (GenerationStart
                           (mkFileData "toString" "toString" [ft]))
                   initialApp)) in
  (∀ p e, processedFiles a !! p = Some e → path e = p) ∧
  (∀ p, activeFile a = Some p → is_Some (processedFiles a !! p)) ∧
  (∀ p html, stored (processedFiles a) !! p = Some (Stray html) →
             inherited p = true).
Proof.
  intros ft a. apply X3_reachable_states_are_well_formed.
  repeat constructor.
Defined.

(** ** Streams of chunks *)

Lemma joined_app (l1 l2 : list string) :
  joined (l1 ++ l2) = joined l1 +:+ joined l2.
Proof.
  induction l1 as [|c l1 IH]; [reflexivity|].
  cbn. unfold joined in *. cbn. by rewrite IH, append_assoc.
Qed.

Lemma joined_nil : joined [] = "".
Proof. reflexivity. Qed.

Lemma joined_singleton (c : string) : joined [c] = c.
Proof. unfold joined. cbn. apply append_nil_r. Qed.

Lemma chunksFor_snoc (p : string) (updates : list (string * string))
    (u : string * string) :
  chunksFor p (updates ++ [u]) =
    chunksFor p updates ++ (if decide (u.1 = p) then [u.2] else []).
Proof.
  unfold chunksFor. rewrite filter_app, fmap_app, filter_cons, filter_nil.
  by destruct (decide (u.1 = p)).
Qed.

Lemma deliver_snoc (updates : list (string * string))
    (u : string * string) (a : App) :
  deliver (updates ++ [u]) a = handleStreamUpdate u.1 u.2 (deliver updates a).
Proof. unfold deliver. by rewrite foldl_app. Qed.

Lemma afterChunks_nil (p : string) (before : option Stored) :
  afterChunks p [] before = before.
Proof.
  destruct before as [[e|h]|]; cbn.
  - by rewrite append_nil_r, withOutput_same.
  - by rewrite append_nil_r.
  - by rewrite andb_false_r.
Qed.

Lemma afterChunks_snoc (p : string) (chunks : list string) (c : string)
    (before : option Stored) :
  afterChunks p (chunks ++ [c]) before =
    match afterChunks p chunks before with
    | Some (Entry e) => Some (Entry (withOutput e (generatedHtml e +:+ c)))
    | Some (Stray html) => Some (Stray (html +:+ c))
    | None => if inherited p then Some (Stray ("undefined" +:+ c)) else None
    end.
Proof.
  assert (Hne : bool_decide (chunks ++ [c] = []) = false).
  { apply bool_decide_eq_false. by destruct chunks. }
  destruct before as [[e|h]|]; cbn.
  - by rewrite joined_app, joined_singleton, append_assoc.
  - by rewrite joined_app, joined_singleton, append_assoc.
  - rewrite Hne. destruct (inherited p); [|reflexivity]. cbn.
    destruct chunks as [|c0 chunks].
    + cbn -[String.append]. by rewrite append_nil_r.
    + rewrite (bool_decide_eq_false_2 (c0 :: chunks = [])) by done.
      cbn [negb]. by rewrite joined_app, joined_singleton, append_assoc.
Qed.

(** X5.  Chunks for several paths may arrive interleaved: after any list of
    [onStreamUpdate] calls, what an own key holds is what it held before
    with exactly the chunks addressed to that path added at the end of its
    output, in arrival order (chunks for other paths do not leak into it);
    an entry keeps its name, path and source files.  A path that was no key
    stays no key, unless it names a member of [Object.prototype] and a
    chunk was addressed to it: it then holds an object with a
    [generatedHtml] field only, whose text is ["undefined"] followed by
    those chunks.  The active pointer stays. *)
Theorem X5_interleaved_streams
    (updates : list (string * string)) (a : App) :
  (∀ p, stored (processedFiles (deliver updates a)) !! p =
        afterChunks p (chunksFor p updates) (stored (processedFiles a) !! p)) ∧
  (∀ p, processedFiles (deliver updates a) !! p =
        (λ e, withOutput e
                (generatedHtml e +:+ joined (chunksFor p updates)))
          <$> processedFiles a !! p) ∧
  activeFile (deliver updates a) = activeFile a.
Proof.
  assert (Hstored : ∀ p,
    stored (processedFiles (deliver updates a)) !! p =
    afterChunks p (chunksFor p updates) (stored (processedFiles a) !! p)).
  { induction updates as [|[q c] updates IH] using rev_ind; intros p.
    - cbn. by rewrite afterChunks_nil.
    - rewrite deliver_snoc, chunksFor_snoc. cbn [fst snd].
      rewrite stored_handleStreamUpdate.
      destruct (decide (p = q)) as [->|Hne].
      + rewrite decide_True by done. by rewrite afterChunks_snoc, IH.
      + rewrite decide_False by done. by rewrite app_nil_r, IH. }
  split_and!.
  - exact Hstored.
  - intros p. rewrite !reg_lookup_unfold, Hstored.
    destruct (stored (processedFiles a) !! p) as [[e|h]|]; cbn;
      [reflexivity | reflexivity |].
    by destruct (inherited p && negb (bool_decide (chunksFor p updates = []))).
  - clear Hstored.
    induction updates as [|[q c] updates IH] using rev_ind; [reflexivity|].
    rewrite deliver_snoc. exact IH.
Qed.

(** ** The pasted-code form, in full *)

(** X6.  A pasted-code submission is accepted exactly when the code is not
    blank and the file name contains a dot.  When accepted, the entry is
    created from the code and the name as typed, without trimming, the
    name serving as entry name, path and file name; a validation message
    left by an earlier attempt is cleared. *)
Theorem X6_submission_accepted_iff (s : Session) :
  let c := pastedCode (view s) in
  let n := inputFileName (view s) in
  let s' := handleGenerateFromText s in
  (validationError (view s') = None ↔ ¬ whitespaceOnly c ∧ ¬ lacksDot n) ∧
  (¬ whitespaceOnly c → ¬ lacksDot n →
     s' = mkSession
            (handleGenerationStart (mkFileData n n [ProjectFile.mk n c])
               (app s))
            (setValidationError None (view s))).
Proof.
  cbn zeta. rewrite handleGenerateFromText_cases. cbn zeta.
  destruct (decide (trim (pastedCode (view s)) = "")) as [Hc|Hc].
  - apply trim_empty_iff in Hc. split; [|done].
    split; [discriminate | by intros [? _]].
  - rewrite trim_empty_iff in Hc.
    destruct (decide (lacksDot (inputFileName (view s)))) as [Hn|Hn].
    + split; [|done]. split; [discriminate | by intros [_ ?]].
    + split; [|done]. by split.
Qed.

(** The name [" a.b "] and the code [" x "] are stored with their blanks. *)
Lemma X6_submission_accepted_iff_witness :
  let s := mkSession initialApp
             (mkEditorView false None false TabPreview " x " " a.b "
                (Some "old message") None None None) in
  handleGenerateFromText s =
    mkSession
      (mkApp {[ " a.b " := mkProcessedFile " a.b " " a.b "
                             [ProjectFile.mk " a.b " " x "] "" ]}
             (Some " a.b "))
      (mkEditorView false None false TabPreview " x " " a.b " None None None
         None).
Proof.
  intros s. refine (proj2 (X6_submission_accepted_iff s) _ _).
  - intros H. apply whitespaceOnly_cons in H as [_ H].
    apply whitespaceOnly_cons in H as [H _]. discriminate H.
  - intros H. apply H. apply list_elem_of_In. cbn. tauto.
Defined.

(** ** Uploaded files *)

Lemma append_String (c : ascii) (s1 s2 : string) :
  String c s1 +:+ s2 = String c (s1 +:+ s2).
Proof. reflexivity. Qed.

(** X7.  When reading a selected file fails, the registry and the active
    pointer are left alone and the page shows the error panel with the
    text ["File Read Error: Failed to read file: "] followed by the name of
    the file, whether or not an entry is active. *)
Theorem X7_file_read_failure_is_shown
    (activeFile : option ProcessedFile) (n : string) (s : Session) :
  let s' := handleFileChange activeFile (ReadFailed n) s in
  app s' = app s ∧
  error (view s') = Some ("File Read Error: Failed to read file: " +:+ n) ∧
  renderContent s' = ErrorPanel ("File Read Error: Failed to read file: " +:+ n).
Proof.
  cbn zeta. unfold handleFileChange.
  assert ("File Read Error: " +:+ "Failed to read file: " +:+ n =
          "File Read Error: Failed to read file: " +:+ n) as ->
    by (by rewrite <- append_assoc).
  split_and!; reflexivity.
Qed.

Lemma projectNameOf_many (f g : ProjectFile.t) (rest : list ProjectFile.t) :
  projectNameOf f (g :: rest) =
    "Project (" +:+ pretty (S (S (length rest))) +:+ " files)".
Proof. reflexivity. Qed.

(** X8.  Files selected while no entry is active create one entry and make
    it active; it holds the files in the order of the selection and an
    empty output.  A single file gives the entry the name and path of the
    file; two or more files give it the name and path ["Project (N
    files)"], with N the number of files in decimal, and the generation
    effect then has a call to issue, with exactly these files. *)
Theorem X8_upload_creates_project
    (f : ProjectFile.t) (rest : list ProjectFile.t) (s : Session) :
  let s' := handleFileChange None (AllRead (f :: rest)) s in
  let n := projectNameOf f rest in
  processedFiles (app s') =
    <[n := mkProcessedFile n n (f :: rest) ""]> (processedFiles (app s)) ∧
  activeFile (app s') = Some n ∧
  view s' = view s ∧
  (rest = [] → n = ProjectFile.name f) ∧
  (rest ≠ [] →
     n = "Project (" +:+ pretty (length (f :: rest)) +:+ " files)" ∧
     generationEffect s' =
       Some (mkInvocation (f :: rest) (imageBase64 (view s))
               (imageMimeType (view s)) n)).
Proof.
  cbn zeta. split_and!; try reflexivity.
  - by intros ->.
  - intros Hrest. destruct rest as [|g rest]; [done|].
    split; [reflexivity|].
    unfold handleFileChange, onApp. cbn [app view].
    set (n := projectNameOf f (g :: rest)).
    rewrite (generationEffect_active s _ n
               (mkProcessedFile n n (f :: g :: rest) ""));
      [ reflexivity | reflexivity | | apply reg_lookup_insert_eq ].
    unfold n. by rewrite projectNameOf_many, append_String.
Qed.

(** Three files: the entry is ["Project (3 files)"]. *)
Lemma X8_upload_creates_project_witness :
  let fa := ProjectFile.mk "a.js" "1" in
  let fb := ProjectFile.mk "b.js" "2" in
  let fc := ProjectFile.mk "c.css" "3" in
  let s' := handleFileChange None (AllRead [fa; fb; fc]) initialSession in
  projectNameOf fa [fb; fc] = "Project (3 files)" ∧
  generationEffect s' =
    Some (mkInvocation [fa; fb; fc] None None "Project (3 files)").
Proof.
  intros fa fb fc s'.
  refine (proj2 (proj2 (proj2 (proj2
            (X8_upload_creates_project fa [fb; fc] initialSession)))) _).
  discriminate.
Defined.

(** ** The reference image *)

Lemma lacksComma_cons (c : ascii) (s : string) :
  lacksComma (String c s) ↔ c ≠ ","%char ∧ lacksComma s.
Proof.
  unfold lacksComma. cbn. rewrite not_elem_of_cons.
  split; intros [H1 H2]; (split; [congruence | exact H2]).
Qed.

Lemma splitOn_lacksComma (s : string) :
  lacksComma s → splitOn "," s = [s].
Proof.
  induction s as [|c s IH]; [reflexivity|].
  intros [Hc Hs]%lacksComma_cons. cbn [splitOn].
  apply Ascii.eqb_neq in Hc. rewrite Hc, (IH Hs). reflexivity.
Qed.

Lemma splitOn_comma (header rest : string) :
  lacksComma header →
  splitOn "," (header +:+ String "," rest) = header :: splitOn "," rest.
Proof.
  induction header as [|c header IH].
  - intros _. reflexivity.
  - intros [Hc Hs]%lacksComma_cons. rewrite append_String. cbn [splitOn].
    apply Ascii.eqb_neq in Hc. rewrite Hc, (IH Hs). reflexivity.
Qed.

Lemma handleImageChange_dataURL (t header payload : string) (s : Session) :
  String.prefix "image/" t = true →
  lacksComma header → lacksComma payload →
  handleImageChange (Some (mkImageFile t (header +:+ "," +:+ payload))) s =
    mkSession (app s)
      (mkEditorView (isLoading (view s)) (error (view s))
         (isCopied (view s)) (activeTab (view s)) (pastedCode (view s))
         (inputFileName (view s)) (validationError (view s))
         (Some (header +:+ "," +:+ payload)) (Some payload) (Some t)).
Proof.
  intros Ht Hh Hp. unfold handleImageChange.
  cbn [img_type img_result]. rewrite Ht.
  change ("," +:+ payload) with (String "," payload).
  rewrite (splitOn_comma _ _ Hh), (splitOn_lacksComma _ Hp). reflexivity.
Qed.

Lemma handleGenerateFromText_accepted (s : Session) :
  ¬ whitespaceOnly (pastedCode (view s)) →
  ¬ lacksDot (inputFileName (view s)) →
  handleGenerateFromText s =
    mkSession
      (handleGenerationStart
         (mkFileData (inputFileName (view s)) (inputFileName (view s))
            [ProjectFile.mk (inputFileName (view s)) (pastedCode (view s))])
         (app s))
      (setValidationError None (view s)).
Proof.
  intros Hc Hn. rewrite handleGenerateFromText_cases. cbn zeta.
  rewrite <- trim_empty_iff in Hc. by rewrite !decide_False.
Qed.

(** X9.  Picking a file whose type starts with ["image/"] stores the data
    URL as preview, the type as MIME type and, for a data URL made of a
    header, a comma and a payload (neither holding a comma), the payload as
    image data; a data URL without any comma leaves the image data without
    a value.  A file of another type, or no file, changes nothing.  The
    registry and the other cells are never touched. *)
Theorem X9_image_selection (t : string) (s : Session) :
  (String.prefix "image/" t = false →
     ∀ url, handleImageChange (Some (mkImageFile t url)) s = s) ∧
  handleImageChange None s = s ∧
  (String.prefix "image/" t = true →
     ∀ header payload, lacksComma header → lacksComma payload →
       handleImageChange
         (Some (mkImageFile t (header +:+ "," +:+ payload))) s =
       mkSession (app s)
         (mkEditorView (isLoading (view s)) (error (view s))
            (isCopied (view s)) (activeTab (view s)) (pastedCode (view s))
            (inputFileName (view s)) (validationError (view s))
            (Some (header +:+ "," +:+ payload)) (Some payload) (Some t))) ∧
  (String.prefix "image/" t = true →
     ∀ url, lacksComma url →
       imageBase64 (view (handleImageChange (Some (mkImageFile t url)) s)) =
         None ∧
       imagePreview (view (handleImageChange (Some (mkImageFile t url)) s)) =
         Some url).
Proof.
  split_and!.
  - intros Ht url. unfold handleImageChange. cbn. by rewrite Ht.
  - reflexivity.
  - intros Ht header payload Hh Hp. by apply handleImageChange_dataURL.
  - intros Ht url Hurl. unfold handleImageChange.
    cbn [img_type img_result]. rewrite Ht, (splitOn_lacksComma _ Hurl).
    by split.
Qed.

Lemma X9_image_selection_witness :
  handleImageChange
    (Some (mkImageFile "image/png" "data:image/png;base64,iVBORw0KGgo="))
    initialSession =
  mkSession initialApp
    (mkEditorView false None false TabPreview "" "" None
       (Some "data:image/png;base64,iVBORw0KGgo=") (Some "iVBORw0KGgo=")
       (Some "image/png")).
Proof.
  refine (proj1 (proj2 (proj2 (X9_image_selection "image/png" initialSession)))
            eq_refl "data:image/png;base64" "iVBORw0KGgo=" _ _);
    intros H; apply list_elem_of_In in H; cbn in H;
    repeat (destruct H as [H|H]; [discriminate H|]); exact H.
Defined.

Lemma generationEffect_of_active (a : App) (v : EditorView) (p : string)
    (af : ProcessedFile) :
  activeFile a = Some p → p ≠ "" → processedFiles a !! p = Some af →
  generationEffect (mkSession a v) =
    if needsGeneration af
    then Some (mkInvocation (sourceFiles af) (imageBase64 v)
                 (imageMimeType v) (path af))
    else None.
Proof.
  intros Hact Hp Haf.
  exact (generationEffect_active (mkSession a v) a p af Hact Hp Haf).
Qed.

Lemma lacksDot_nonempty (n : string) : ¬ lacksDot n → n ≠ "".
Proof. intros H ->. apply H. intros Hin. by apply elem_of_nil in Hin. Qed.

(** X10.  The image cells at the moment of an accepted submission are what
    the service is called with: an image picked before travels with the
    call as (payload, type), and after [removeImage] the call carries no
    image. *)
Theorem X10_image_travels_with_the_call
    (t header payload : string) (s : Session) :
  String.prefix "image/" t = true →
  lacksComma header → lacksComma payload →
  ¬ whitespaceOnly (pastedCode (view s)) →
  ¬ lacksDot (inputFileName (view s)) →
  let c := pastedCode (view s) in
  let n := inputFileName (view s) in
  let picked :=
    handleImageChange (Some (mkImageFile t (header +:+ "," +:+ payload))) s in
  generationEffect (handleGenerateFromText picked) =
    Some (mkInvocation [ProjectFile.mk n c] (Some payload) (Some t) n) ∧
  generationEffect (handleGenerateFromText (removeImage picked)) =
    Some (mkInvocation [ProjectFile.mk n c] None None n).
Proof.
  intros Ht Hh Hp Hc Hn. cbn zeta.
  rewrite (handleImageChange_dataURL t header payload s Ht Hh Hp).
  pose proof (lacksDot_nonempty _ Hn) as Hne.
  split.
  - rewrite handleGenerateFromText_accepted by done.
    cbn [view pastedCode inputFileName app].
    erewrite generationEffect_of_active;
      [ | reflexivity | exact Hne | apply reg_lookup_insert_eq ].
    reflexivity.
  - rewrite handleGenerateFromText_accepted by done.
    cbn [view pastedCode inputFileName app removeImage onView].
    erewrite generationEffect_of_active;
      [ | reflexivity | exact Hne | apply reg_lookup_insert_eq ].
    reflexivity.
Qed.

Lemma X10_image_travels_with_the_call_witness :
  let s := mkSession initialApp
             (mkEditorView false None false TabPreview "x = 1" "a.py" None
                None None None) in
  let picked :=
    handleImageChange
      (Some (mkImageFile "image/png" "data:image/png;base64,iVBORw0KGgo=")) s in
  generationEffect (handleGenerateFromText picked) =
    Some (mkInvocation [ProjectFile.mk "a.py" "x = 1"] (Some "iVBORw0KGgo=")
            (Some "image/png") "a.py") ∧
  generationEffect (handleGenerateFromText (removeImage picked)) =
    Some (mkInvocation [ProjectFile.mk "a.py" "x = 1"] None None "a.py").
Proof.
  intros s.
  refine (X10_image_travels_with_the_call "image/png"
            "data:image/png;base64" "iVBORw0KGgo=" s eq_refl _ _ _ _).
  - intros H; apply list_elem_of_In in H; cbn in H;
      repeat (destruct H as [H|H]; [discriminate H|]); exact H.
  - intros H; apply list_elem_of_In in H; cbn in H;
      repeat (destruct H as [H|H]; [discriminate H|]); exact H.
  - intros H. apply whitespaceOnly_cons in H as [H _]. discriminate H.
  - intros H. apply H. apply list_elem_of_In. cbn. tauto.
Defined.

(** ** Starting over *)

Lemma deliver_cons (u : string * string) (updates : list (string * string))
    (a : App) :
  deliver (u :: updates) a = deliver updates (handleStreamUpdate u.1 u.2 a).
Proof. reflexivity. Qed.

Lemma deliver_absent (updates : list (string * string)) (a : App) :
  (∀ u, u ∈ updates → jsGet (processedFiles a) u.1 = NotFound) →
  deliver updates a = a.
Proof.
  induction updates as [|u updates IH]; intros Habs; [reflexivity|].
  rewrite deliver_cons, handleStreamUpdate_NotFound.
  - apply IH. intros u' Hu'. apply Habs. by right.
  - apply Habs. by left.
Qed.

Lemma deliver_no_entries (updates : list (string * string)) (a : App) :
  (∀ q, processedFiles a !! q = None) →
  ∀ q, processedFiles (deliver updates a) !! q = None.
Proof.
  revert a. induction updates as [|u updates IH]; intros a Hnone q.
  - apply Hnone.
  - rewrite deliver_cons. apply IH. intros q'.
    rewrite handleStreamUpdate_lookup.
    destruct (decide (q' = u.1)); by rewrite Hnone.
Qed.

Lemma deliver_activeFile (updates : list (string * string)) (a : App) :
  activeFile (deliver updates a) = activeFile a.
Proof.
  revert a. induction updates as [|u updates IH]; intros a; [reflexivity|].
  rewrite deliver_cons. by rewrite IH.
Qed.

(** Chunks that arrive while no active entry waits issue no call. *)
Lemma runUpdates_idle (updates : list (string * string)) (s : Session) :
  idle (app s) →
  runEvents ((λ u, Callback (StreamUpdate u.1 u.2)) <$> updates) s =
    Some (mkSession (deliver updates (app s)) (view s), []).
Proof.
  revert s. induction updates as [|u updates IH]; intros s Hidle.
  - by destruct s.
  - cbn [fmap list_fmap runEvents]. rewrite dispatch_StreamUpdate.
    assert (Hidle' : idle (app (onApp (handleStreamUpdate u.1 u.2) s)))
      by (by apply idle_handleStreamUpdate).
    rewrite (afterRender_idle _ Hidle').
    assert (runEvents ((λ u, Callback (StreamUpdate u.1 u.2)) <$> updates)
              (onApp (handleStreamUpdate u.1 u.2) s) =
            Some (mkSession (deliver (u :: updates) (app s)) (view s), []))
      as Hrest by (by rewrite (IH _ Hidle')).
    destruct (isReplaced _); by rewrite Hrest.
Qed.

(** X11.  [handleResetAndClear] empties the registry, clears the active
    pointer, the error, the validation message, the pasted code, the file
    name and the image, and the page shows the empty intake form; it does
    not touch the loading flag, and doing it twice is doing it once.
    Chunks of calls still in flight that arrive afterwards, for whatever
    paths, never bring an entry back, never set the active pointer, never
    start a generation and never unmount the page, which keeps showing the
    intake form; when none of them is addressed to a member name of
    [Object.prototype], they change nothing at all. *)
Theorem X11_start_over (s : Session) (updates : list (string * string)) :
  let s' := handleResetAndClear s in
  s' = mkSession initialApp
         (mkEditorView (isLoading (view s)) None (isCopied (view s))
            (activeTab (view s)) "" "" None None None None) ∧
  renderContent s' = IntakeForm None ∧
  handleResetAndClear s' = s' ∧
  runEvents ((λ u, Callback (StreamUpdate u.1 u.2)) <$> updates) s' =
    Some (mkSession (deliver updates (app s')) (view s'), []) ∧
  (∀ q, processedFiles (deliver updates (app s')) !! q = None) ∧
  activeFile (deliver updates (app s')) = None ∧
  renderContent (mkSession (deliver updates (app s')) (view s')) =
    IntakeForm None ∧
  ((∀ u, u ∈ updates → inherited u.1 = false) →
     deliver updates (app s') = app s').
Proof.
  cbn zeta. split_and!; try reflexivity.
  - apply runUpdates_idle. split; [reflexivity|]. intros af. discriminate.
  - apply deliver_no_entries. intros q. apply reg_lookup_empty.
  - by rewrite deliver_activeFile.
  - unfold renderContent, activeValue. cbn [view app].
    by rewrite deliver_activeFile.
  - intros Hplain. apply deliver_absent. intros u Hu. cbn. unfold jsGet.
    change (stored ∅) with (∅ : gmap string Stored).
    by rewrite lookup_empty, (Hplain u Hu).
Qed.

(** Two late chunks, for ["a.js"] and ["b.js"], arrive after the page was
    started over: nothing changes. *)
Lemma X11_start_over_witness :
  let s' := handleResetAndClear initialSession in
  deliver [("a.js", "<p>"); ("b.js", "x")] (app s') = app s'.
Proof.
  intros s'.
  refine (proj2 (proj2 (proj2 (proj2 (proj2 (proj2 (proj2
            (X11_start_over initialSession
               [("a.js", "<p>"); ("b.js", "x")]))))))) _).
  intros u Hu. apply list_elem_of_In in Hu. cbn in Hu.
  destruct Hu as [<-|[<-|[]]]; reflexivity.
Defined.

(** ** A generation that succeeds *)

(** The effect, run to its end for the active entry. *)
Lemma useEffectGenerate_active (run : StreamRun) (s : Session) (p : string)
    (af : ProcessedFile) :
  activeFile (app s) = Some p → p ≠ "" →
  processedFiles (app s) !! p = Some af → path af = p →
  needsGeneration af = true →
  useEffectGenerate run s =
    mkSession
      (mkApp (<[p := withOutput af (joined (delivered run))]>
                (processedFiles (app s)))
             (Some p))
      (generateSettle (outcome run) (generateStart (view s))).
Proof.
  intros Hact Hp Haf Hpath Hneeds. unfold useEffectGenerate.
  pose proof (activeFileData_active _ _ _ Hact Hp Haf) as Hdata.
  rewrite Hdata, Hneeds.
  rewrite <- Hpath in Haf.
  rewrite (generate_result af af run s (activeIsNoEntry_of_entry _ _ Hdata) Haf).
  apply needsGeneration_true_iff in Hneeds as [_ Hout].
  rewrite Hout, Hpath, Hact. reflexivity.
Qed.

(** When the first chunk of the call for the active entry carries text, or
    the call delivers no chunk, the effect issues no further call while
    the call runs. *)
Lemma generateRun_quiet (run : StreamRun) (s : Session) (p : string)
    (af : ProcessedFile) :
  activeFile (app s) = Some p → p ≠ "" →
  processedFiles (app s) !! p = Some af → path af = p →
  needsGeneration af = true →
  delivered run !! 0%nat ≠ Some "" →
  generateRun af run s = Some (useEffectGenerate run s, []).
Proof.
  intros Hact Hp Haf Hpath Hneeds Hhead.
  rewrite (useEffectGenerate_active run s p af Hact Hp Haf Hpath Hneeds).
  pose proof Hneeds as [Hsrc Hout]%needsGeneration_true_iff.
  unfold generateRun. rewrite Hpath.
  destruct (delivered run) as [|c cs] eqn:Hchunks.
  - cbn [fmap list_fmap runEvents]. cbn [onView app view].
    rewrite joined_nil, <- Hout, withOutput_same, reg_insert_id by done.
    destruct s as [[r act] v]. cbn in *. by rewrite Hact.
  - assert (Hc : c ≠ "") by (intros ->; by apply Hhead).
    cbn [fmap list_fmap runEvents]. rewrite dispatch_StreamUpdate.
    cbn [onView app view].
    rewrite streamUpdater_spec, (jsGet_of_lookup _ _ _ Haf).
    cbn [isReplaced]. unfold onApp at 1.
    change (app (onView generateStart s)) with (app s).
    change (view (onView generateStart s)) with (generateStart (view s)).
    set (s1 := mkSession (handleStreamUpdate p c (app s))
                         (generateStart (view s))).
    assert (Hdata1 : activeFileData (app s1) =
                     Some (withOutput af (generatedHtml af +:+ c))).
    { unfold s1. cbn [app]. rewrite (handleStreamUpdate_Some _ _ _ _ Haf).
      apply (activeFileData_active _ p);
        [exact Hact | exact Hp | apply reg_lookup_insert_eq]. }
    assert (Hidle1 : needsGeneration
                       (withOutput af (generatedHtml af +:+ c)) = false).
    { apply not_true_iff_false. rewrite needsGeneration_true_iff.
      cbn. rewrite Hout. intros [_ H]. by apply Hc. }
    rewrite (afterRender_active s1 _ Hdata1), Hidle1.
    rewrite (runChunks_idle p cs s1).
    + unfold s1. cbn [app view].
      change (foldl (λ a chunk, handleStreamUpdate p chunk a)
                (handleStreamUpdate p c (app s)) cs)
        with (foldl (λ a chunk, handleStreamUpdate p chunk a)
                (app s) (c :: cs)).
      rewrite (handleStreamUpdate_chunks p (c :: cs) (app s) af Haf).
      by rewrite Hout, Hact.
    + split; [by eapply activeIsNoEntry_of_entry|].
      intros af'. rewrite Hdata1. by intros [= <-].
Qed.

(** X12.  When the call for the active entry returns normally and its
    first chunk, if any, carries text, the effect issues no further call
    meanwhile, the entry's output is the chunks in arrival order, the
    error and the loading flag are cleared, the preview tab is selected,
    and the page shows the project panel with that output.  If any text
    arrived, the effect has nothing left to do: run again, it changes
    nothing and issues no call. *)
Theorem X12_successful_generation
    (chunks : list string) (s : Session) (p : string) (af : ProcessedFile) :
  activeFile (app s) = Some p → p ≠ "" →
  processedFiles (app s) !! p = Some af → path af = p →
  needsGeneration af = true →
  chunks !! 0%nat ≠ Some "" →
  let s' := useEffectGenerate (mkStreamRun chunks None) s in
  generateRun af (mkStreamRun chunks None) s = Some (s', []) ∧
  processedFiles (app s') !! p =
    Some {| name := name af; path := p; sourceFiles := sourceFiles af;
            generatedHtml := joined chunks |} ∧
  error (view s') = None ∧
  isLoading (view s') = false ∧
  renderContent s' = ProjectPanel TabPreview p (joined chunks) ∧
  (joined chunks ≠ "" →
     generationEffect s' = None ∧
     ∀ run, useEffectGenerate run s' = s').
Proof.
  intros Hact Hp Haf Hpath Hneeds Hhead. cbn zeta.
  split; [by apply (generateRun_quiet _ s p af)|].
  rewrite (useEffectGenerate_active _ s p af Hact Hp Haf Hpath Hneeds).
  cbn [app view processedFiles delivered outcome].
  assert (Hdata : activeFileData
            (mkApp (<[p := withOutput af (joined chunks)]>
                      (processedFiles (app s))) (Some p)) =
            Some (withOutput af (joined chunks))).
  { apply (activeFileData_active _ p); [reflexivity | exact Hp |].
    apply reg_lookup_insert_eq. }
  split_and!.
  - rewrite reg_lookup_insert_eq. unfold withOutput. by rewrite Hpath.
  - reflexivity.
  - reflexivity.
  - unfold renderContent. cbn [view app error generateSettle generateStart
      setIsLoading setError setActiveTab truthy activeTab].
    apply activeFileData_activeValue in Hdata. rewrite Hdata.
    cbn. by rewrite Hpath.
  - intros Hout.
    assert (Hidle : needsGeneration (withOutput af (joined chunks)) = false).
    { apply not_true_iff_false. rewrite needsGeneration_true_iff.
      cbn. tauto. }
    split.
    + unfold generationEffect. cbn [app]. by rewrite Hdata, Hidle.
    + intros run. unfold useEffectGenerate. cbn [app].
      by rewrite Hdata, Hidle.
Qed.

Lemma X12_successful_generation_witness :
  let af := mkProcessedFile "x.py" "x.py" [ProjectFile.mk "x.py" "print(1)"] "" in
  let s := mkSession (mkApp {[ "x.py" := af ]} (Some "x.py")) initialView in
  let s' := useEffectGenerate (mkStreamRun ["<p>"; "hi"] None) s in
  generateRun af (mkStreamRun ["<p>"; "hi"] None) s = Some (s', []) ∧
  renderContent s' = ProjectPanel TabPreview "x.py" "<p>hi" ∧
  (∀ run, useEffectGenerate run s' = s').
Proof.
  intros af s s'.
  destruct (X12_successful_generation ["<p>"; "hi"] s "x.py" af)
    as (Hrun & _ & _ & _ & Hrender & Hidle); try reflexivity;
    [discriminate | discriminate |].
  split_and!; [exact Hrun | exact Hrender |]. apply Hidle. discriminate.
Defined.

(** X13.  A run of [generate] on a page whose active prop is an entry or
    nothing, whatever the service does (any chunks, any outcome), only
    ever writes [generatedHtml] texts: it keeps the active pointer, keeps
    what every key other than the path it forwards to holds, keeps the
    name, path and source files of every entry, removes no key and adds
    none, except the path it forwards to when that path names a member of
    [Object.prototype]; it leaves the pasted code, the file name, the
    validation message and the image as they are; and it ends with the
    loading flag off. *)
Theorem X13_generate_frame (af : ProcessedFile) (run : StreamRun)
    (s : Session) :
  activeIsNoEntry (app s) = false →
  let s' := generate af run s in
  activeFile (app s') = activeFile (app s) ∧
  (∀ q, q ≠ path af →
        stored (processedFiles (app s')) !! q =
        stored (processedFiles (app s)) !! q) ∧
  (∀ q, (λ e, (name e, path e, sourceFiles e))
           <$> processedFiles (app s') !! q =
        (λ e, (name e, path e, sourceFiles e))
           <$> processedFiles (app s) !! q) ∧
  (∀ q, q ∈ dom (processedFiles (app s)) → q ∈ dom (processedFiles (app s'))) ∧
  (∀ q, q ∈ dom (processedFiles (app s')) →
        q ∈ dom (processedFiles (app s)) ∨
        (q = path af ∧ inherited q = true)) ∧
  pastedCode (view s') = pastedCode (view s) ∧
  inputFileName (view s') = inputFileName (view s) ∧
  validationError (view s') = validationError (view s) ∧
  imageBase64 (view s') = imageBase64 (view s) ∧
  imageMimeType (view s') = imageMimeType (view s) ∧
  isLoading (view s') = false.
Proof.
  intros Hgood. cbn zeta. rewrite (generate_session _ _ _ Hgood).
  cbn [app view].
  assert (Happ : ∀ chunks a,
    let a' := foldl (λ st chunk, handleStreamUpdate (path af) chunk st)
                    a chunks in
    activeFile a' = activeFile a ∧
    (∀ q, q ≠ path af →
          stored (processedFiles a') !! q = stored (processedFiles a) !! q) ∧
    (∀ q, (λ e, (name e, path e, sourceFiles e)) <$> processedFiles a' !! q =
          (λ e, (name e, path e, sourceFiles e)) <$> processedFiles a !! q) ∧
    (∀ q, q ∈ dom (processedFiles a) → q ∈ dom (processedFiles a')) ∧
    (∀ q, q ∈ dom (processedFiles a') →
          q ∈ dom (processedFiles a) ∨ (q = path af ∧ inherited q = true))).
  { induction chunks as [|c cs IH]; intros a.
    { cbn. split_and!; auto. }
    cbn [foldl]. cbn zeta in IH.
    destruct (IH (handleStreamUpdate (path af) c a))
      as (H1 & H2 & H3 & H4 & H5).
    split_and!.
    - by rewrite H1.
    - intros q Hq. rewrite (H2 q Hq), stored_handleStreamUpdate.
      by rewrite decide_False.
    - intros q. rewrite H3, handleStreamUpdate_lookup.
      destruct (decide (q = path af)) as [->|]; [|reflexivity].
      by destruct (processedFiles a !! path af).
    - intros q Hq. apply H4. revert Hq. rewrite !reg_dom_unfold, !elem_of_dom.
      rewrite stored_handleStreamUpdate.
      destruct (decide (q = path af)) as [->|]; [|done].
      intros [x Hx]. rewrite Hx. destruct x; by eexists.
    - intros q Hq. destruct (H5 q Hq) as [Hq'|?]; [|by right].
      revert Hq'. rewrite !reg_dom_unfold, !elem_of_dom.
      rewrite stored_handleStreamUpdate.
      destruct (decide (q = path af)) as [->|]; [|by left].
      destruct (stored (processedFiles a) !! path af) as [[e|h]|];
        [left; by eexists | left; by eexists |].
      destruct (inherited (path af)) eqn:Hinh; [by right|].
      by intros [? ?]. }
  destruct (Happ (delivered run) (app s)) as (H1 & H2 & H3 & H4 & H5).
  split_and!; try done; by destruct (outcome run).
Qed.

(** Two entries; a failing run for ["a.js"] leaves ["b.js"] as it was. *)
Lemma X13_generate_frame_witness :
  let ea := mkProcessedFile "a.js" "a.js" [ProjectFile.mk "a.js" "1"] "" in
  let eb := mkProcessedFile "b.js" "b.js" [ProjectFile.mk "b.js" "2"] "<b>" in
  let s := mkSession (mkApp (<[ "a.js" := ea ]> {[ "b.js" := eb ]})
                            (Some "a.js"))
             initialView in
  stored (processedFiles
    (app (generate ea (mkStreamRun ["<a>"] (Some ThrownOther)) s))) !! "b.js" =
  stored (processedFiles (app s)) !! "b.js".
Proof.
  intros ea eb s.
  refine (proj1 (proj2
            (X13_generate_frame ea (mkStreamRun ["<a>"] (Some ThrownOther)) s
               eq_refl)) "b.js" _).
  discriminate.
Defined.

(** ** From the form to the page *)

(** X14.  An accepted pasted-code submission followed by a call that
    returns normally and whose first chunk, if any, carries text: no
    further call is issued meanwhile; the registry holds the entry with the
    pasted code as its only source file and the chunks, in arrival order,
    as output; the page shows the project panel on the preview tab with
    that output, even if an error was showing before the submission. *)
Theorem X14_paste_then_generate (chunks : list string) (s : Session) :
  ¬ whitespaceOnly (pastedCode (view s)) →
  ¬ lacksDot (inputFileName (view s)) →
  chunks !! 0%nat ≠ Some "" →
  let c := pastedCode (view s) in
  let n := inputFileName (view s) in
  let s1 := handleGenerateFromText s in
  let s' := useEffectGenerate (mkStreamRun chunks None) s1 in
  generateRun (mkProcessedFile n n [ProjectFile.mk n c] "")
    (mkStreamRun chunks None) s1 = Some (s', []) ∧
  processedFiles (app s') !! n =
    Some (mkProcessedFile n n [ProjectFile.mk n c] (joined chunks)) ∧
  activeFile (app s') = Some n ∧
  error (view s') = None ∧
  renderContent s' = ProjectPanel TabPreview n (joined chunks).
Proof.
  intros Hc Hn Hhead. cbn zeta.
  rewrite handleGenerateFromText_accepted by done.
  pose proof (lacksDot_nonempty _ Hn) as Hne.
  set (n := inputFileName (view s)) in *.
  set (c := pastedCode (view s)).
  split.
  { apply (generateRun_quiet _ _ n);
      [ reflexivity | exact Hne | apply reg_lookup_insert_eq
      | reflexivity | reflexivity | exact Hhead ]. }
  rewrite (useEffectGenerate_active _ _ n
             (mkProcessedFile n n [ProjectFile.mk n c] ""));
    [ | reflexivity | exact Hne | apply reg_lookup_insert_eq
      | reflexivity | reflexivity ].
  cbn [app view processedFiles activeFile delivered outcome].
  split_and!; try reflexivity.
  - apply reg_lookup_insert_eq.
  - unfold renderContent. cbn [view app error generateSettle generateStart
      setIsLoading setError setActiveTab truthy].
    erewrite (proj1 (activeFileData_activeValue _ _));
      [ | apply (activeFileData_active _ n);
          [reflexivity | exact Hne | apply reg_lookup_insert_eq] ].
    reflexivity.
Qed.

(** The first end-to-end scenario, with an error left on the page by an
    earlier attempt. *)
Lemma X14_paste_then_generate_witness :
  let s := mkSession initialApp
             (mkEditorView false (Some "quota") false TabCode "print(1)"
                "x.py" None None None None) in
  let s' := useEffectGenerate (mkStreamRun ["<p>"; "1"; "</p>"] None)
              (handleGenerateFromText s) in
  processedFiles (app s') !! "x.py" =
    Some (mkProcessedFile "x.py" "x.py" [ProjectFile.mk "x.py" "print(1)"]
            "<p>1</p>") ∧
  activeFile (app s') = Some "x.py" ∧
  error (view s') = None ∧
  renderContent s' = ProjectPanel TabPreview "x.py" "<p>1</p>".
Proof.
  intros s.
  refine (proj2 (X14_paste_then_generate ["<p>"; "1"; "</p>"] s _ _ _)).
  - intros H. apply whitespaceOnly_cons in H as [H _]. discriminate H.
  - intros H. apply H. apply list_elem_of_In. cbn. tauto.
  - discriminate.
Defined.

(** X15.  Adding a file with a new name to the active entry and letting the
    call that follows return normally, its first chunk, if any, carrying
    text: the call is issued with the old files followed by the added
    ones, no further call is issued meanwhile, and the entry's output is
    made of the new chunks only, nothing of the former output. *)
Theorem X15_append_then_regenerate
    (chunks : list string) (s : Session) (p : string) (e : ProcessedFile)
    (newFiles : list ProjectFile.t) :
  activeFile (app s) = Some p → p ≠ "" →
  processedFiles (app s) !! p = Some e → path e = p →
  Exists (λ f, ProjectFile.name f ∉ sourceNames e) newFiles →
  chunks !! 0%nat ≠ Some "" →
  let e1 := {| name := name e; path := p;
               sourceFiles := sourceFiles e ++ freshFiles e newFiles;
               generatedHtml := "" |} in
  let s1 := onApp (handleAddFilesToProject p newFiles) s in
  let s' := useEffectGenerate (mkStreamRun chunks None) s1 in
  generationEffect s1 =
    Some (mkInvocation (sourceFiles e ++ freshFiles e newFiles)
            (imageBase64 (view s)) (imageMimeType (view s)) p) ∧
  generateRun e1 (mkStreamRun chunks None) s1 = Some (s', []) ∧
  processedFiles (app s') !! p =
    Some {| name := name e; path := p;
            sourceFiles := sourceFiles e ++ freshFiles e newFiles;
            generatedHtml := joined chunks |}.
Proof.
  intros Hact Hp He Hpath Hex Hhead. cbn zeta.
  apply freshFiles_cons_iff in Hex.
  set (e1 := {| name := name e; path := p;
                sourceFiles := sourceFiles e ++ freshFiles e newFiles;
                generatedHtml := "" |}).
  assert (Hs1 : onApp (handleAddFilesToProject p newFiles) s =
                mkSession (mkApp (<[p := e1]> (processedFiles (app s)))
                                 (Some p)) (view s)).
  { unfold onApp, handleAddFilesToProject.
    rewrite (addFilesUpdater_entry _ _ _ _ He), Hact. unfold e1.
    rewrite <- Hpath at 3.
    by destruct (freshFiles e newFiles). }
  assert (Hneeds : needsGeneration e1 = true).
  { apply needsGeneration_true_iff. split; [|reflexivity]. cbn.
    destruct (sourceFiles e); [exact Hex | done]. }
  rewrite Hs1. split_and!.
  - erewrite generationEffect_of_active;
      [ | reflexivity | exact Hp | apply reg_lookup_insert_eq ].
    by rewrite Hneeds.
  - apply (generateRun_quiet _ _ p);
      [ reflexivity | exact Hp | apply reg_lookup_insert_eq
      | reflexivity | exact Hneeds | exact Hhead ].
  - rewrite (useEffectGenerate_active _ _ p e1);
      [ | reflexivity | exact Hp | apply reg_lookup_insert_eq
        | reflexivity | exact Hneeds ].
    cbn [app processedFiles delivered]. by rewrite reg_lookup_insert_eq.
Qed.

Lemma X15_append_then_regenerate_witness :
  let fa := ProjectFile.mk "a.js" "1" in
  let fb := ProjectFile.mk "b.js" "2" in
  let e := mkProcessedFile "proj" "proj" [fa] "<old>" in
  let s := mkSession (mkApp {[ "proj" := e ]} (Some "proj")) initialView in
  let s1 := onApp (handleAddFilesToProject "proj" [fa; fb]) s in
  let s' := useEffectGenerate (mkStreamRun ["<new>"] None) s1 in
  generationEffect s1 = Some (mkInvocation [fa; fb] None None "proj") ∧
  generateRun (mkProcessedFile "proj" "proj" [fa; fb] "")
    (mkStreamRun ["<new>"] None) s1 = Some (s', []) ∧
  processedFiles (app s') !! "proj" =
    Some (mkProcessedFile "proj" "proj" [fa; fb] "<new>").
Proof.
  intros fa fb e s.
  refine (X15_append_then_regenerate ["<new>"] s "proj" e [fa; fb]
            eq_refl _ eq_refl eq_refl _ _).
  - discriminate.
  - apply Exists_cons_tl, Exists_cons_hd.
    intros H. apply list_elem_of_In in H. cbn in H.
    destruct H as [H|[]]. discriminate H.
  - discriminate.
Defined.

(** ** The string primitives *)

Lemma whitespaceOnly_app (s1 s2 : string) :
  whitespaceOnly s1 → whitespaceOnly s2 → whitespaceOnly (s1 +:+ s2).
Proof.
  intros H1 H2. induction s1 as [|c s1 IH]; [exact H2|].
  apply whitespaceOnly_cons in H1 as [Hc H1].
  rewrite append_String. apply whitespaceOnly_cons. auto.
Qed.

Lemma trimStart_decompose (s : string) :
  ∃ l, s = l +:+ trimStart s ∧ whitespaceOnly l.
Proof.
  induction s as [|c s (l & Hl & Hws)].
  - exists "". split; [reflexivity | apply whitespaceOnly_nil].
  - cbn [trimStart]. destruct (isWhiteSpace c) eqn:Hc.
    + exists (String c l). split.
      * rewrite append_String. by rewrite <- Hl.
      * by apply whitespaceOnly_cons.
    + exists "". split; [reflexivity | apply whitespaceOnly_nil].
Qed.

Lemma trimEnd_decompose (s : string) :
  ∃ r, s = trimEnd s +:+ r ∧ whitespaceOnly r.
Proof.
  induction s as [|c s (r & Hr & Hws)].
  - exists "". split; [reflexivity | apply whitespaceOnly_nil].
  - cbn [trimEnd]. destruct (trimEnd s) as [|d t] eqn:Ht.
    + destruct (isWhiteSpace c) eqn:Hc.
      * exists (String c s). split; [reflexivity|].
        apply whitespaceOnly_cons. split; [exact Hc|].
        by apply trimEnd_empty_iff.
      * exists r. split; [|exact Hws].
        rewrite append_String. by rewrite Hr at 1.
    + exists r. split; [|exact Hws].
      rewrite append_String. by rewrite Hr at 1.
Qed.

Lemma trimStart_head (s : string) (c : ascii) (t : string) :
  trimStart s = String c t → isWhiteSpace c = false.
Proof.
  induction s as [|a s IH]; [discriminate|].
  cbn [trimStart]. destruct (isWhiteSpace a) eqn:Ha; [exact IH|].
  by intros [= <- _].
Qed.

Lemma trimEnd_head (c : ascii) (s : string) :
  isWhiteSpace c = false → ∃ t, trimEnd (String c s) = String c t.
Proof.
  intros Hc. cbn [trimEnd]. destruct (trimEnd s); rewrite ?Hc; eauto.
Qed.

Lemma trimEnd_last (s t : string) (c : ascii) :
  trimEnd s = t +:+ String c "" → isWhiteSpace c = false.
Proof.
  revert t. induction s as [|a s IH]; intros t.
  - cbn. destruct t; discriminate.
  - cbn [trimEnd]. destruct (trimEnd s) as [|d u] eqn:Hu.
    + destruct (isWhiteSpace a) eqn:Ha.
      * destruct t; discriminate.
      * destruct t as [|b t].
        -- by intros [= <-].
        -- rewrite append_String. intros [= _ H]. destruct t; discriminate.
    + destruct t as [|b t].
      * discriminate.
      * rewrite append_String. intros [= _ H]. by apply (IH t).
Qed.

Lemma trimStart_clean (s : string) :
  (∀ c t, s = String c t → isWhiteSpace c = false) → trimStart s = s.
Proof.
  destruct s as [|c s]; [reflexivity|]. intros H. cbn.
  by rewrite (H c s eq_refl).
Qed.

Lemma trimEnd_clean (s : string) :
  (∀ t c, s = t +:+ String c "" → isWhiteSpace c = false) → trimEnd s = s.
Proof.
  induction s as [|a s IH]; [reflexivity|]. intros H. cbn [trimEnd].
  rewrite IH.
  - destruct s; [|reflexivity]. by rewrite (H "" a eq_refl).
  - intros t c ->. apply (H (String a t) c). reflexivity.
Qed.

(** X16.  [trim], as used on the pasted code and the file name, removes
    white space at both ends and nothing else: the string is a blank
    string, then its trimmed form, then a blank string; the trimmed form
    neither starts nor ends with white space; trimming twice is trimming
    once. *)
Theorem X16_trim_removes_the_blank_ends (s : string) :
  (∃ l r, s = l +:+ trim s +:+ r ∧ whitespaceOnly l ∧ whitespaceOnly r) ∧
  (∀ c t, trim s = String c t → isWhiteSpace c = false) ∧
  (∀ t c, trim s = t +:+ String c "" → isWhiteSpace c = false) ∧
  trim (trim s) = trim s.
Proof.
  assert (Hhead : ∀ c t, trim s = String c t → isWhiteSpace c = false).
  { unfold trim. intros c t.
    destruct (trimStart s) as [|a u] eqn:Hs; [discriminate|].
    pose proof (trimStart_head _ _ _ Hs) as Ha.
    destruct (trimEnd_head a u Ha) as [t' ->]. by intros [= <- _]. }
  assert (Hlast : ∀ t c, trim s = t +:+ String c "" → isWhiteSpace c = false)
    by (intros t c; apply trimEnd_last).
  split_and!; [|exact Hhead|exact Hlast|].
  - destruct (trimStart_decompose s) as (l & Hl & Hlws).
    destruct (trimEnd_decompose (trimStart s)) as (r & Hr & Hrws).
    exists l, r. split_and!; [|done|done].
    unfold trim. by rewrite <- Hr.
  - unfold trim at 1. rewrite (trimStart_clean _ Hhead).
    by apply trimEnd_clean.
Qed.

Lemma X16_trim_removes_the_blank_ends_witness :
  trim "  a b  " = "a b" ∧ isWhiteSpace "a"%char = false.
Proof.
  split; [reflexivity|].
  refine (proj1 (proj2 (X16_trim_removes_the_blank_ends "  a b  "))
            "a"%char " b" _).
  reflexivity.
Defined.

Lemma prefix_true_iff (sub s : string) :
  String.prefix sub s = true ↔ ∃ rest, s = sub +:+ rest.
Proof.
  revert s. induction sub as [|c sub IH]; intros s.
  - split; [intros _; by exists s | intros _; by destruct s].
  - destruct s as [|d s].
    + split; [discriminate | intros [rest H]; discriminate H].
    + change (String.prefix (String c sub) (String d s))
        with (if ascii_dec c d then String.prefix sub s else false).
      destruct (ascii_dec c d) as [<-|Hne].
      * rewrite IH. split; intros [rest H]; exists rest.
        -- by rewrite append_String, <- H.
        -- rewrite append_String in H. by injection H.
      * split; [discriminate|]. intros [rest H].
        rewrite append_String in H. injection H as H1 H2. congruence.
Qed.

(** X17.  [includes], as used on the file name, holds exactly when the
    searched text occurs somewhere in the string; in particular every
    string includes the empty text. *)
Theorem X17_includes_is_occurrence (s sub : string) :
  (includes s sub = true ↔ occursIn sub s) ∧ includes s "" = true.
Proof.
  split.
  - unfold occursIn. induction s as [|c s IH].
    + cbn [includes]. rewrite orb_false_r, prefix_true_iff. split.
      * intros [rest H]. by exists "", rest.
      * intros (before & after & H). destruct before; [by exists after|].
        discriminate H.
    + cbn [includes]. rewrite orb_true_iff, prefix_true_iff, IH. split.
      * intros [[rest H]|(before & after & H)].
        -- by exists "", rest.
        -- exists (String c before), after. by rewrite append_String, <- H.
      * intros (before & after & H). destruct before as [|b before].
        -- left. by exists after.
        -- right. rewrite append_String in H. injection H as _ H.
           by exists before, after.
  - by destruct s.
Qed.

(** ** Uploads into an active project *)

Lemma dispatch_AddFilesToProject_NotFound (p : string)
    (newFiles : list ProjectFile.t) (s : Session) :
  jsGet (processedFiles (app s)) p = NotFound →
  dispatch (Callback (AddFilesToProject p newFiles)) s = Some (s, []) ∧
  onApp (handleAddFilesToProject p newFiles) s = s.
Proof.
  intros Hget.
  assert (Hs : onApp (handleAddFilesToProject p newFiles) s = s).
  { unfold onApp, handleAddFilesToProject.
    rewrite addFilesUpdater_spec, Hget. by destruct s as [[r act] v]. }
  split; [|exact Hs].
  unfold dispatch. cbn [throws rerenders handle].
  rewrite addFilesUpdater_spec, Hget. cbn [isThrown isReplaced].
  change (onApp (handle (AddFilesToProject p newFiles)) s)
    with (onApp (handleAddFilesToProject p newFiles) s).
  by rewrite Hs.
Qed.

Lemma dispatch_AddFilesToProject_no_entry (p : string)
    (newFiles : list ProjectFile.t) (s : Session) :
  processedFiles (app s) !! p = None →
  jsGet (processedFiles (app s)) p ≠ NotFound →
  dispatch (Callback (AddFilesToProject p newFiles)) s = None.
Proof.
  intros Hnone Hget. unfold dispatch. cbn [throws].
  rewrite addFilesUpdater_spec.
  destruct (jsGet (processedFiles (app s)) p) as [e|h| |] eqn:Hfound;
    try reflexivity; [|done].
  apply jsGet_entry in Hfound. congruence.
Qed.

(** X18.  Files selected while an entry is active are passed to
    [onAddFilesToProject] with the path of that entry as the handler saw
    it.  When that path still holds an entry, the files are appended to
    it: the updater does not throw, no key is added or removed, the active
    pointer and the cells of the view stay, other keys keep what they
    hold, and selecting the same files again changes nothing more.  When
    the path is no longer a key when the files have been read (the
    registry was reset in between) and names no member of
    [Object.prototype], nothing happens at all.  When it holds no entry
    but the lookup still finds something, the updater throws and the page
    is unmounted. *)
Theorem X18_upload_into_active_project
    (af : ProcessedFile) (f : ProjectFile.t) (rest : list ProjectFile.t)
    (s : Session) :
  let ev := AddFilesToProject (path af) (f :: rest) in
  let s' := handleFileChange (Some af) (AllRead (f :: rest)) s in
  fileChangeCallback (Some af) (AllRead (f :: rest)) = Some ev ∧
  match jsGet (processedFiles (app s)) (path af) with
  | FoundEntry e =>
      throws ev (app s) = false ∧
      processedFiles (app s') !! path af = Some (afterAppend e (f :: rest)) ∧
      activeFile (app s') = activeFile (app s) ∧
      dom (processedFiles (app s')) = dom (processedFiles (app s)) ∧
      view s' = view s ∧
      (∀ q, q ≠ path af →
            stored (processedFiles (app s')) !! q =
            stored (processedFiles (app s)) !! q) ∧
      handleFileChange (Some af) (AllRead (f :: rest)) s' = s'
  | NotFound => dispatch (Callback ev) s = Some (s, []) ∧ s' = s
  | FoundStray _ | FoundInherited => dispatch (Callback ev) s = None
  end.
Proof.
  cbn zeta. split; [reflexivity|].
  destruct (jsGet (processedFiles (app s)) (path af)) as [e|h| |] eqn:Hget.
  - pose proof Hget as He%jsGet_entry.
    unfold handleFileChange, onApp. cbn [app view].
    split_and!; try reflexivity.
    + cbn [throws]. rewrite addFilesUpdater_spec, Hget.
      by destruct (freshFiles e (f :: rest)).
    + rewrite reg_lookup_unfold, stored_handleAddFilesToProject.
      rewrite decide_True by done.
      apply reg_lookup_stored in He. by rewrite He.
    + rewrite !reg_dom_unfold. apply gmap_dom_eq_lookup. intros q.
      rewrite stored_handleAddFilesToProject.
      destruct (decide (q = path af)) as [->|]; [|done].
      apply reg_lookup_stored in He. rewrite He.
      split; intros _; by eexists.
    + intros q Hq. rewrite stored_handleAddFilesToProject.
      by rewrite decide_False.
    + f_equal. unfold handleAddFilesToProject at 1.
      rewrite (setState_not_replaced _ _
                 (addFilesUpdater_after_append (app s) (path af) (f :: rest))).
      by destruct (handleAddFilesToProject (path af) (f :: rest) (app s)).
  - apply dispatch_AddFilesToProject_no_entry; [|by rewrite Hget].
    destruct (processedFiles (app s) !! path af) as [e|] eqn:He; [|done].
    apply jsGet_entry in He. congruence.
  - apply dispatch_AddFilesToProject_no_entry; [|by rewrite Hget].
    destruct (processedFiles (app s) !! path af) as [e|] eqn:He; [|done].
    apply jsGet_entry in He. congruence.
  - by apply dispatch_AddFilesToProject_NotFound.
Qed.

(** A file named ["toString"] is uploaded and its generation completes;
    the user starts over while the files of a second selection are being
    read.  The stale handler then appends to the path ["toString"], which
    is no key of the registry any more. *)
Lemma X18_upload_into_active_project_witness :
  let af := mkProcessedFile "toString" "toString"
              [ProjectFile.mk "toString" "1"] "<p>" in
  let s := handleResetAndClear
             (mkSession (mkApp {[ "toString" := af ]} (Some "toString"))
                initialView) in
  fileChangeCallback (Some af) (AllRead [ProjectFile.mk "b.js" "2"]) =
    Some (AddFilesToProject "toString" [ProjectFile.mk "b.js" "2"]) ∧
  dispatch
    (Callback (AddFilesToProject "toString" [ProjectFile.mk "b.js" "2"])) s =
    None.
Proof.
  intros af s.
  exact (X18_upload_into_active_project af (ProjectFile.mk "b.js" "2") [] s).
Defined.
